(** * LanDrop: discovery registry and file-transfer sessions

    A shallow embedding of the two protocol engines of the Electron main
    process, [electron/main/services/discovery.ts] and
    [electron/main/services/transfer.ts], together with the properties the
    specification states about them.

    Conventions.  JavaScript numbers that hold byte counts, ports and
    millisecond clocks are integers in the source and are modelled in [Z].
    [Date.now()] is an explicit argument of every handler that reads the
    clock.  A [Map] whose iteration order is observable is an association
    list in insertion order; a [Map] that is only read with [get] is a
    [gmap].  Event emission and promise settlement are recorded in the
    state or returned as a list, in program order. *)

From Stdlib Require Import ZArith String Ascii List Lia.
From Stdlib.Strings Require Import Byte.
From stdpp Require Import gmap strings list.

Local Open Scope string_scope.
Local Open Scope list_scope.

(** ** JavaScript [Map] with observable insertion order *)

Module JsMap.

Abbreviation t V := (list (string * V)).

Fixpoint get {V} (k : string) (m : t V) : option V :=
  match m with
  | [] => None
  | (k', v) :: m' => if String.eqb k k' then Some v else get k m'
  end.

Definition has {V} (k : string) (m : t V) : bool :=
  match get k m with Some _ => true | None => false end.

(** [Map.prototype.set]: an existing key keeps its position, a new key is
    appended. *)
Fixpoint set {V} (k : string) (v : V) (m : t V) : t V :=
  match m with
  | [] => [(k, v)]
  | (k', v') :: m' =>
      if String.eqb k k' then (k, v) :: m' else (k', v') :: set k v m'
  end.

Definition keys {V} (m : t V) : list string := map fst m.
Definition values {V} (m : t V) : list V := map snd m.

End JsMap.

(** ** Discovery service ([discovery.ts]) *)

Module Discovery.

Local Open Scope Z_scope.

Inductive DeviceType := desktop | mobile | tablet.

Record Device := mkDevice {
  id : string;
  name : string;
  ip : string;
  port : Z;
  online : bool;
  type : DeviceType;
  platform : option string
}.

(** The fields [type], [platform] and [port] of the message carry the
    prefix [msg_], their names being taken by [Device]. *)
Record AnnounceMessage := mkAnnounce {
  msg_type : string;
  deviceId : string;
  deviceName : string;
  msg_platform : string;
  msg_port : Z;
  timestamp : Z
}.

Definition TRANSFER_PORT : Z := 5201.
Definition BROADCAST_INTERVAL : Z := 3000.
Definition DEVICE_TIMEOUT : Z := 10000.

(** The fields of [DiscoveryService] the handlers read or write.
    [mainWindow] is [true] when a window is attached and not destroyed. *)
Record State := mkState {
  devices : JsMap.t Device;
  lastSeen : gmap string Z;
  self_deviceId : string;
  mainWindow : bool
}.

Inductive Event :=
| DeviceDiscovered (d : Device)
| DeviceOffline (d : Device)
| DeviceUpdate (l : list Device).

Definition getDeviceType (p : string) : DeviceType :=
  if String.eqb p "darwin" || String.eqb p "win32" || String.eqb p "linux"
  then desktop else mobile.

Definition getDevices (st : State) : list Device :=
  filter (fun d => online d = true) (JsMap.values (devices st)).

Definition handleAnnounce (st : State) (data : AnnounceMessage) (ip : string)
    (now : Z) : State * list Event :=
  let isNew := negb (JsMap.has (deviceId data) (devices st)) in
  let device := {| id := deviceId data; name := deviceName data; ip := ip;
                   port := TRANSFER_PORT; online := true;
                   type := getDeviceType (msg_platform data);
                   platform := Some (msg_platform data) |} in
  let st' := {| devices := JsMap.set (deviceId data) device (devices st);
                lastSeen := <[deviceId data := now]> (lastSeen st);
                self_deviceId := self_deviceId st;
                mainWindow := mainWindow st |} in
  (st', (if isNew then [DeviceDiscovered device] else [])
        ++ (if mainWindow st then [DeviceUpdate (getDevices st')] else [])).

(** The ['message'] handler of [createSocket].  [parsed] is the value of
    [JSON.parse(msg.toString())], [None] when it throws. *)
Definition onMessage (st : State) (parsed : option AnnounceMessage)
    (rinfo_address : string) (now : Z) : State * list Event :=
  match parsed with
  | Some data =>
      if String.eqb (msg_type data) "announce"
         && negb (String.eqb (deviceId data) (self_deviceId st))
      then handleAnnounce st data rinfo_address now
      else (st, [])
  | None => (st, [])
  end.

(** [this.lastSeen.get(id) || 0] *)
Definition lastSeenTime (st : State) (k : string) : Z :=
  match lastSeen st !! k with Some t => t | None => 0 end.

Definition timedOut (st : State) (now : Z) (k : string) : bool :=
  now - lastSeenTime st k >? DEVICE_TIMEOUT.

Definition markOffline (d : Device) : Device :=
  {| id := id d; name := name d; ip := ip d; port := port d; online := false;
     type := type d; platform := platform d |}.

(** The body of the interval callback installed by [startCleanup].  The
    device objects are mutated in place, so the map and the emitted events
    hold the same, already offline, record. *)
Definition cleanup (st : State) (now : Z) : State * list Event :=
  let sweep := fun kv : string * Device =>
    if timedOut st now (fst kv) then (fst kv, markOffline (snd kv)) else kv in
  let devices' := map sweep (devices st) in
  let devicesToRemove :=
    map (fun kv => markOffline (snd kv))
        (filter (fun kv => timedOut st now (fst kv) = true) (devices st)) in
  let st' := {| devices := devices'; lastSeen := lastSeen st;
                self_deviceId := self_deviceId st;
                mainWindow := mainWindow st |} in
  (st', map DeviceOffline devicesToRemove
        ++ (if mainWindow st then [DeviceUpdate (getDevices st')] else [])).

Definition init (self : string) (window : bool) : State :=
  {| devices := []; lastSeen := ∅; self_deviceId := self; mainWindow := window |}.

(** What the event loop delivers to the service. *)
Inductive Input :=
| Message (parsed : option AnnounceMessage) (rinfo_address : string) (now : Z)
| Tick (now : Z).

Definition step (st : State) (i : Input) : State * list Event :=
  match i with
  | Message parsed address now => onMessage st parsed address now
  | Tick now => cleanup st now
  end.

Fixpoint run (st : State) (inputs : list Input) : State * list Event :=
  match inputs with
  | [] => (st, [])
  | i :: rest =>
      let '(st1, ev1) := step st i in
      let '(st2, ev2) := run st1 rest in
      (st2, ev1 ++ ev2)
  end.

Definition offlineEvents (k : string) (evs : list Event) : list Device :=
  omap (fun e => match e with
                 | DeviceOffline d => if String.eqb (id d) k then Some d else None
                 | _ => None
                 end) evs.

End Discovery.

(** ** Node.js primitives used by the transfer service

    [Buffer], [path] (POSIX flavour) and the part of [fs] the service calls.
    They are not code of the repository; the definitions follow Node's
    documented behaviour so that the service code can be run on concrete
    inputs. *)

Module Buffer.

Local Open Scope Z_scope.

Definition byteZ (b : byte) : Z := Z.of_N (Byte.to_N b).

Definition byteOfZ (z : Z) : byte :=
  match Byte.of_N (Z.to_N (Z.land z 255)) with Some b => b | None => x00 end.

(** [buf.readUInt32BE(0)]; the callers check the length first. *)
Definition readUInt32BE (buf : list byte) : Z :=
  match buf with
  | b0 :: b1 :: b2 :: b3 :: _ =>
      Z.lor (Z.shiftl (byteZ b0) 24)
        (Z.lor (Z.shiftl (byteZ b1) 16) (Z.lor (Z.shiftl (byteZ b2) 8) (byteZ b3)))
  | _ => 0
  end.

(** [Buffer.alloc(4)] followed by [writeUInt32BE(n, 0)]. *)
Definition writeUInt32BE (n : Z) : list byte :=
  [byteOfZ (Z.shiftr n 24); byteOfZ (Z.shiftr n 16); byteOfZ (Z.shiftr n 8); byteOfZ n].

Definition lengthZ (buf : list byte) : Z := Z.of_nat (length buf).

(** [buf.slice(from, to)] for [0 <= from]; both ends are clamped to the
    length of the buffer. *)
Definition slice (from to : Z) (buf : list byte) : list byte :=
  take (Z.to_nat (Z.min to (lengthZ buf) - from)) (drop (Z.to_nat from) buf).

(** [buf.indexOf('\n')] *)
Fixpoint indexOfNewline (buf : list byte) : option nat :=
  match buf with
  | [] => None
  | b :: rest =>
      if Byte.eqb b x0a then Some O
      else match indexOfNewline rest with Some i => Some (S i) | None => None end
  end.

End Buffer.

Module Path.

Definition isSlash (c : ascii) : bool := Ascii.eqb c "/"%char.

(** The components of a path between separators, empty ones included. *)
Fixpoint split (s : string) : list string :=
  match s with
  | EmptyString => [""]
  | String c rest =>
      if isSlash c then "" :: split rest
      else match split rest with
           | [] => [String c ""]
           | seg :: segs => String c seg :: segs
           end
  end.

Definition isDotDot (seg : string) : bool := String.eqb seg "..".
Definition isSkipped (seg : string) : bool := String.eqb seg "" || String.eqb seg ".".

(** [normalizeString]: [res] is the stack of components kept so far, most
    recent first. *)
Fixpoint normalizeSegments (allowAboveRoot : bool) (res : list string)
    (segs : list string) : list string :=
  match segs with
  | [] => rev res
  | seg :: rest =>
      if isSkipped seg then normalizeSegments allowAboveRoot res rest
      else if isDotDot seg then
        match res with
        | top :: res' =>
            if isDotDot top
            then normalizeSegments allowAboveRoot
                   (if allowAboveRoot then ".." :: res else res) rest
            else normalizeSegments allowAboveRoot res' rest
        | [] =>
            normalizeSegments allowAboveRoot
              (if allowAboveRoot then [".."] else []) rest
        end
      else normalizeSegments allowAboveRoot (seg :: res) rest
  end.

Definition isAbsolute (p : string) : bool :=
  match p with String c _ => isSlash c | EmptyString => false end.

Fixpoint endsWithSlash (p : string) : bool :=
  match p with
  | EmptyString => false
  | String c EmptyString => isSlash c
  | String _ rest => endsWithSlash rest
  end.

Definition concatSegments (segs : list string) : string := String.concat "/" segs.

(** [path.posix.normalize] *)
Definition normalize (p : string) : string :=
  if String.eqb p "" then "."
  else
    let body := concatSegments (normalizeSegments (negb (isAbsolute p)) [] (split p)) in
    if String.eqb body "" then
      if isAbsolute p then "/" else if endsWithSlash p then "./" else "."
    else
      let body' := if endsWithSlash p then (body ++ "/")%string else body in
      if isAbsolute p then ("/" ++ body')%string else body'.

(** [path.posix.join(a, b)]: empty arguments are left out. *)
Definition join (a b : string) : string :=
  if String.eqb a "" then (if String.eqb b "" then "." else normalize b)
  else if String.eqb b "" then normalize a
  else normalize (a ++ "/" ++ b)%string.

Fixpoint dropWhile (f : ascii -> bool) (l : list ascii) : list ascii :=
  match l with
  | [] => []
  | c :: rest => if f c then dropWhile f rest else l
  end.

(** [path.posix.dirname]: the scan runs from the last character down to
    index 1, skipping trailing separators and then the last component; the
    separator it stops at is the end of the result. *)
Definition dirname (p : string) : string :=
  match p with
  | EmptyString => "."
  | String c0 rest =>
      let scanned :=
        dropWhile (fun c => negb (isSlash c))
          (dropWhile isSlash (rev (list_ascii_of_string rest))) in
      match scanned with
      | [] => if isSlash c0 then "/" else "."
      | _ :: before =>
          if isSlash c0 && Nat.eqb (length before) 0 then "//"
          else String c0 (string_of_list_ascii (rev before))
      end
  end.

(** [p], its parent, its grandparent, ... up to the root or ["."],
    outermost first. *)
Fixpoint ancestorsFuel (fuel : nat) (p : string) (acc : list string) : list string :=
  match fuel with
  | O => acc
  | S fuel' =>
      if String.eqb p "/" || String.eqb p "." || String.eqb p "//" then acc
      else ancestorsFuel fuel' (dirname p) (p :: acc)
  end.

Definition ancestors (p : string) : list string :=
  ancestorsFuel (S (String.length p)) p [].

End Path.

Module Fs.

Inductive Node := File (content : list byte) | Directory.

(** The root and the working directory always exist. *)
Definition isAnchor (p : string) : bool :=
  String.eqb p "/" || String.eqb p "." || String.eqb p "//".

Definition lookup (fs : gmap string Node) (p : string) : option Node :=
  if isAnchor p then Some Directory else fs !! p.

(** [fs.existsSync(p)] *)
Definition existsSync (fs : gmap string Node) (p : string) : bool :=
  match lookup fs p with Some _ => true | None => false end.

(** [fs.mkdirSync(p, { recursive: true })]; [None] when it throws because a
    component of [p] is a regular file. *)
Definition mkdirSync (fs : gmap string Node) (p : string) : option (gmap string Node) :=
  fold_left
    (fun acc a =>
       match acc with
       | None => None
       | Some fs' =>
           match fs' !! a with
           | Some (File _) => None
           | _ => Some (<[a := Directory]> fs')
           end
       end)
    (Path.ancestors p) (Some fs).

(** [fs.promises.open(p, 'w')]: creates or truncates the file; [None] when
    the promise rejects (the target is a directory, or its parent is not). *)
Definition openWrite (fs : gmap string Node) (p : string) : option (gmap string Node) :=
  if Path.endsWithSlash p then None
  else
    match lookup fs p, lookup fs (Path.dirname p) with
    | Some Directory, _ => None
    | _, Some Directory => Some (<[p := File []]> fs)
    | _, _ => None
    end.

(** [handle.write(data)] on a handle opened with [openWrite]: the bytes go
    after those already written through the handle. *)
Definition write (fs : gmap string Node) (p : string) (data : list byte) : gmap string Node :=
  match fs !! p with
  | Some (File content) => <[p := File (content ++ data)]> fs
  | _ => fs
  end.

End Fs.

(** ** Transfer service ([transfer.ts]) *)

Module Transfer.

Local Open Scope Z_scope.

Definition TRANSFER_PORT : Z := 5201.
Definition CHUNK_SIZE : Z := 64 * 1024.

(** [FileInfo] is declared in [discovery.ts] and used by the transfer
    service only. *)
Record FileInfo := mkFileInfo {
  name : string;
  size : Z;
  isDirectory : bool;
  path : string;
  relativePath : option string
}.

Inductive Status := pending | transferring | completed | failed.
Inductive Direction := send | receive.

(** [speed], a floating-point throughput figure derived from the clock, is
    left out of the record. *)
Record TransferTask := mkTask {
  id : string;
  deviceId : string;
  deviceName : string;
  files : list FileInfo;
  totalSize : Z;
  transferredSize : Z;
  status : Status;
  direction : Direction;
  startTime : Z
}.

(** Calls made to the registered callbacks, in order. *)
Inductive Notification :=
| OnRequest (task : TransferTask)
| OnProgress (taskId : string) (transferred total : Z)
| OnComplete (task : TransferTask)
| OnError (taskId : string) (error : string).

(** What is written to a socket: the two JSON control records and raw
    buffers. *)
Inductive Wire :=
| WRequest (fileCount : nat) (total : Z) (manifest : list FileInfo)
| WResponse (accepted : bool) (message : string)
| WBytes (data : list byte).

(** The service instance together with what it acts on: the file system
    and the global scope.  [totalWrittenBytes] is the binding the name has
    where [receiveNextFile] runs: the variable of that name is a local of
    [handleConnection], which is not in scope there, so the name resolves
    in the global scope; [None] means no such global exists and evaluating
    the name raises a [ReferenceError]. *)
Record World := mkWorld {
  downloadDir : string;
  currentTask : option TransferTask;
  onProgressCallback : bool;
  onCompleteCallback : bool;
  onRequestCallback : bool;
  onErrorCallback : bool;
  disk : gmap string Fs.Node;
  totalWrittenBytes : option Z;
  notified : list Notification
}.

Definition setDir (d : string) (w : World) : World :=
  mkWorld d (currentTask w) (onProgressCallback w) (onCompleteCallback w)
    (onRequestCallback w) (onErrorCallback w) (disk w) (totalWrittenBytes w) (notified w).

Definition setTask (t : option TransferTask) (w : World) : World :=
  mkWorld (downloadDir w) t (onProgressCallback w) (onCompleteCallback w)
    (onRequestCallback w) (onErrorCallback w) (disk w) (totalWrittenBytes w) (notified w).

Definition setDisk (d : gmap string Fs.Node) (w : World) : World :=
  mkWorld (downloadDir w) (currentTask w) (onProgressCallback w) (onCompleteCallback w)
    (onRequestCallback w) (onErrorCallback w) d (totalWrittenBytes w) (notified w).

Definition setTotal (n : option Z) (w : World) : World :=
  mkWorld (downloadDir w) (currentTask w) (onProgressCallback w) (onCompleteCallback w)
    (onRequestCallback w) (onErrorCallback w) (disk w) n (notified w).

Definition notify (n : Notification) (w : World) : World :=
  mkWorld (downloadDir w) (currentTask w) (onProgressCallback w) (onCompleteCallback w)
    (onRequestCallback w) (onErrorCallback w) (disk w) (totalWrittenBytes w)
    (notified w ++ [n]).

Definition setStatus (s : Status) (t : TransferTask) : TransferTask :=
  mkTask (id t) (deviceId t) (deviceName t) (files t) (totalSize t)
    (transferredSize t) s (direction t) (startTime t).

Definition setTransferred (n : Z) (t : TransferTask) : TransferTask :=
  mkTask (id t) (deviceId t) (deviceName t) (files t) (totalSize t)
    n (status t) (direction t) (startTime t).

(** *** Download directory *)

Definition getDownloadDir (w : World) : string := downloadDir w.

Definition setDownloadDir (w : World) (dir : string) : World :=
  if Fs.existsSync (disk w) dir then setDir dir w else w.

(** *** Responder *)

(** The closure of the listener that [receiveData] installs with
    [socket.once('data', ...)]. *)
Record Listener := mkListener {
  l_files : list FileInfo;
  l_fileIndex : nat;
  currentFileHandle : string;
  fileWrittenBytes : Z
}.

(** The locals of [handleConnection] that its listeners use, and the state
    of its socket.  Its other locals ([currentFileIndex],
    [currentFileHandle], [fileWrittenBytes], [totalWrittenBytes]) keep
    their initial values for the life of the connection: the handle and
    the counter of [receiveNextFile] are locals of that method. *)
Record Conn := mkConn {
  buffer : list byte;
  headerParsed : bool;
  dataListener : option Listener;
  written : list Wire;
  ended : bool
}.

Definition newConn : Conn := mkConn [] false None [] false.

Definition setBuffer (b : list byte) (c : Conn) : Conn :=
  mkConn b (headerParsed c) (dataListener c) (written c) (ended c).

Definition setHeaderParsed (c : Conn) : Conn :=
  mkConn (buffer c) true (dataListener c) (written c) (ended c).

Definition setListener (l : option Listener) (c : Conn) : Conn :=
  mkConn (buffer c) (headerParsed c) l (written c) (ended c).

Definition socketWrite (x : Wire) (c : Conn) : Conn :=
  mkConn (buffer c) (headerParsed c) (dataListener c) (written c ++ [x]) (ended c).

Definition socketEnd (c : Conn) : Conn :=
  mkConn (buffer c) (headerParsed c) (dataListener c) (written c) true.

(** [receiveData()]: install the one-shot listener. *)
Definition receiveData (l : Listener) (c : Conn) : Conn := setListener (Some l) c.

Definition receiveNextFile (w : World) (c : Conn) (fs : list FileInfo)
    (fileIndex : nat) : World * Conn :=
  match fs !! fileIndex with
  | None =>
      let w' :=
        match currentTask w with
        | Some t =>
            let t' := setTransferred (totalSize t) (setStatus completed t) in
            let w1 := setTask (Some t') w in
            if onCompleteCallback w then notify (OnComplete t') w1 else w1
        | None => w
        end in
      (w', socketEnd c)
  | Some file =>
      let filePath := Path.join (downloadDir w) (name file) in
      let dir := Path.dirname filePath in
      match (if Fs.existsSync (disk w) dir then Some (disk w)
             else Fs.mkdirSync (disk w) dir) with
      | None => (w, socketEnd c)
      | Some d1 =>
          match Fs.openWrite d1 filePath with
          | None => (setDisk d1 w, socketEnd c)
          | Some d2 =>
              (setDisk d2 w, receiveData (mkListener fs fileIndex filePath 0) c)
          end
      end
  end.

(** The listener installed by [receiveData], run on one ['data'] event. *)
Definition receiveData_listener (w : World) (c : Conn) (l : Listener)
    (data : list byte) : World * Conn :=
  let c0 := setListener None c in
  if (Buffer.lengthZ data =? 4) && (Buffer.readUInt32BE data =? 0) then
    receiveNextFile w c0 (l_files l) (S (l_fileIndex l))
  else if Buffer.lengthZ data <? 4 then
    (w, receiveData l c0)
  else
    let chunkSize := Buffer.readUInt32BE data in
    let chunkData := Buffer.slice 4 (4 + chunkSize) data in
    let w1 := setDisk (Fs.write (disk w) (currentFileHandle l) chunkData) w in
    let l' := mkListener (l_files l) (l_fileIndex l) (currentFileHandle l)
                (fileWrittenBytes l + Buffer.lengthZ chunkData) in
    match totalWrittenBytes w1 with
    | None =>
        (* [totalWrittenBytes += ...] throws; the [catch] ends the socket and
           [receiveData] is not called again. *)
        (w1, socketEnd c0)
    | Some total =>
        let total' := total + Buffer.lengthZ chunkData in
        let w2 := setTotal (Some total') w1 in
        let w3 :=
          match currentTask w2 with
          | Some t =>
              if onProgressCallback w2 then
                let t' := setStatus transferring (setTransferred total' t) in
                notify (OnProgress (id t') total' (totalSize t')) (setTask (Some t') w2)
              else w2
          | None => w2
          end in
        (w3, receiveData l' c0)
    end.

(** The parsed first line of a connection. *)
Record Header := mkHeader {
  h_type : string;
  h_files : list FileInfo;
  h_totalSize : Z
}.

Section Responder.

(** [JSON.parse] of the header line, [None] when it throws. *)
Variable JSON_parse : list byte -> option Header.

(** The decision taken between the request and the response; the source
    binds it to the constant [true]. *)
Variable accepted : bool.

(** The ['data'] listener registered by [handleConnection].  [uuid] is the
    value of [crypto.randomUUID()], [now] that of [Date.now()]. *)
Definition handleConnection_onData (remoteAddress uuid : string) (now : Z)
    (w : World) (c : Conn) (data : list byte) : World * Conn :=
  let c1 := setBuffer (buffer c ++ data) c in
  if headerParsed c1 then (w, c1)
  else
    match Buffer.indexOfNewline (buffer c1) with
    | None => (w, c1)
    | Some newlineIndex =>
        match JSON_parse (take newlineIndex (buffer c1)) with
        | None => (w, socketEnd c1)
        | Some header =>
            if String.eqb (h_type header) "transfer_request" then
              let c2 := setBuffer (drop (S newlineIndex) (buffer c1)) c1 in
              let task := mkTask uuid "unknown" remoteAddress (h_files header)
                            (h_totalSize header) 0 pending receive now in
              let w1 := if onRequestCallback w then notify (OnRequest task) w else w in
              let c3 := socketWrite
                          (WResponse accepted (if accepted then "接受传输" else "拒绝传输"))
                          c2 in
              if negb accepted then (w1, socketEnd c3)
              else
                receiveNextFile (setTask (Some task) w1) (setHeaderParsed c3)
                  (h_files header) 0
            else (w, c1)
        end
    end.

(** One ['data'] event on an inbound socket: the listeners present when the
    event is emitted run in registration order, each on the whole buffer
    of the event.  The promises a listener awaits (closing and opening a
    file, a write) are taken to settle before the next event is emitted;
    an event that came earlier would find no one-shot listener at all. *)
Definition socketData (remoteAddress uuid : string) (now : Z)
    (w : World) (c : Conn) (data : list byte) : World * Conn :=
  let installed := dataListener c in
  let '(w1, c1) := handleConnection_onData remoteAddress uuid now w c data in
  match installed with
  | Some l => receiveData_listener w1 c1 l data
  | None => (w1, c1)
  end.

Fixpoint socketDataAll (remoteAddress uuid : string) (now : Z)
    (w : World) (c : Conn) (events : list (list byte)) : World * Conn :=
  match events with
  | [] => (w, c)
  | data :: rest =>
      let '(w1, c1) := socketData remoteAddress uuid now w c data in
      socketDataAll remoteAddress uuid now w1 c1 rest
  end.

(** A ['data'] event together with its timing.  [receiveNextFile]
    registers the one-shot listener only once [await fs.promises.open] has
    settled, and the listener registers its successor only once
    [await currentFileHandle.write] has settled.  An event emitted before
    that ([heard] is [false]) reaches the listener of [handleConnection]
    alone, which appends it to [buffer]; the listener held in
    [dataListener] is then still to be registered and waits for a later
    event.  An event emitted after that ([heard] is [true]) is delivered as
    in [socketData]. *)
Definition socketDataTimed (remoteAddress uuid : string) (now : Z)
    (w : World) (c : Conn) (heard : bool) (data : list byte) : World * Conn :=
  if heard then socketData remoteAddress uuid now w c data
  else handleConnection_onData remoteAddress uuid now w c data.

Fixpoint socketDataTimedAll (remoteAddress uuid : string) (now : Z)
    (w : World) (c : Conn) (events : list (bool * list byte)) : World * Conn :=
  match events with
  | [] => (w, c)
  | (heard, data) :: rest =>
      let '(w1, c1) := socketDataTimed remoteAddress uuid now w c heard data in
      socketDataTimedAll remoteAddress uuid now w1 c1 rest
  end.

End Responder.

(** *** Initiator *)

(** The parsed reply of the peer. *)
Record Response := mkResponse {
  r_type : string;
  r_accepted : bool;
  r_message : string
}.

Inductive Promise := Unsettled | Resolved (taskId : string) | Rejected (message : string).

(** [resolve] and [reject] have no effect on a settled promise. *)
Definition settle (outcome p : Promise) : Promise :=
  match p with Unsettled => outcome | _ => p end.

(** The closure of one [sendFiles] call and the state of its socket.  The
    closure variable [task] and [this.currentTask] are one object, held in
    [currentTask] of the world. *)
Record Sender := mkSender {
  s_files : list FileInfo;
  s_taskId : string;
  s_totalSize : Z;
  socketWrites : list Wire;
  socketEnded : bool;
  promise : Promise;
  headerSent : bool;
  closeListener : bool
}.

Definition senderWrite (x : Wire) (s : Sender) : Sender :=
  mkSender (s_files s) (s_taskId s) (s_totalSize s) (socketWrites s ++ [x])
    (socketEnded s) (promise s) (headerSent s) (closeListener s).

Definition senderEnd (s : Sender) : Sender :=
  mkSender (s_files s) (s_taskId s) (s_totalSize s) (socketWrites s)
    true (promise s) (headerSent s) (closeListener s).

Definition senderSettle (outcome : Promise) (s : Sender) : Sender :=
  mkSender (s_files s) (s_taskId s) (s_totalSize s) (socketWrites s)
    (socketEnded s) (settle outcome (promise s)) (headerSent s) (closeListener s).

Definition senderHeaderSent (s : Sender) : Sender :=
  mkSender (s_files s) (s_taskId s) (s_totalSize s) (socketWrites s)
    (socketEnded s) (promise s) true (closeListener s).

Definition senderOnceClose (s : Sender) : Sender :=
  mkSender (s_files s) (s_taskId s) (s_totalSize s) (socketWrites s)
    (socketEnded s) (promise s) (headerSent s) true.

Definition updateTask (f : TransferTask -> TransferTask) (w : World) : World :=
  match currentTask w with
  | Some t => setTask (Some (f t)) w
  | None => w
  end.

(** [files.reduce((sum, f) => sum + f.size, 0)] *)
Definition sumSizes (fs : list FileInfo) : Z :=
  fold_left (fun sum f => sum + size f) fs 0.

Definition sendFiles (w : World) (device : Discovery.Device) (fs : list FileInfo)
    (uuid : string) (now : Z) : World * Sender :=
  let totalSize := sumSizes fs in
  let task := mkTask uuid (Discovery.id device) (Discovery.name device) fs
                totalSize 0 pending send now in
  (setTask (Some task) w, mkSender fs uuid totalSize [] false Unsettled false false).

(** A chunk on the wire: [chunkHeader] and the bytes read, in one write. *)
Definition chunkFrame (chunk : list byte) : Wire :=
  WBytes (Buffer.writeUInt32BE (Buffer.lengthZ chunk) ++ chunk).

Definition endMarker : list byte := Buffer.writeUInt32BE 0.

(** [readAndSend]: one round per chunk until a read returns no bytes.  Each
    round reads at least one byte, so [fuel] above the length of the file
    is never exhausted. *)
Fixpoint readAndSend (fuel : nat) (content : list byte) (bytesRead : Z)
    (w : World) (s : Sender) : World * Sender :=
  match fuel with
  | O => (w, s)
  | S fuel' =>
      let chunk := Buffer.slice bytesRead (bytesRead + CHUNK_SIZE) content in
      let read := Buffer.lengthZ chunk in
      if read =? 0 then (w, s)
      else
        let s1 := senderWrite (chunkFrame chunk) s in
        let w1 :=
          match currentTask w with
          | Some t =>
              let t' := setTransferred (transferredSize t + read) t in
              let w' := setTask (Some t') w in
              if onProgressCallback w
              then notify (OnProgress (id t') (transferredSize t') (totalSize t')) w'
              else w'
          | None => w
          end in
        readAndSend fuel' content (bytesRead + read) w1 s1
  end.

(** [sendNextFile(socket, files, fileIndex)], with [remaining] the entries
    of [files] from [fileIndex] on. *)
Fixpoint sendNextFile (w : World) (s : Sender) (remaining : list FileInfo)
    : World * Sender :=
  match remaining with
  | [] => (w, senderOnceClose (senderWrite (WBytes endMarker) s))
  | file :: rest =>
      match Fs.lookup (disk w) (path file) with
      | None => (w, senderEnd s)
      | Some Fs.Directory => (w, s)
      | Some (Fs.File content) =>
          let '(w1, s1) := readAndSend (S (length content)) content 0 w s in
          sendNextFile w1 s1 rest
      end
  end.

(** Events on the outbound socket; [Data] carries the value of
    [JSON.parse(data.toString().trim())], [None] when it throws. *)
Inductive SocketEvent :=
| Connect
| Data (parsed : option Response)
| Error (message : string)
| Close.

Definition isCompleted (w : World) : bool :=
  match currentTask w with
  | Some t => match status t with completed => true | _ => false end
  | None => false
  end.

Definition sender_on (w : World) (s : Sender) (e : SocketEvent) : World * Sender :=
  match e with
  | Connect =>
      (w, senderHeaderSent
            (senderWrite (WRequest (length (s_files s)) (s_totalSize s) (s_files s)) s))
  | Data None => (w, s)
  | Data (Some response) =>
      if String.eqb (r_type response) "transfer_response" then
        if r_accepted response then
          sendNextFile (updateTask (setStatus transferring) w) s (s_files s)
        else (w, senderEnd (senderSettle (Rejected (r_message response)) s))
      else (w, s)
  | Error message =>
      let w1 := updateTask (setStatus failed) w in
      let w2 := if onErrorCallback w1 then notify (OnError (s_taskId s) message) w1 else w1 in
      (w2, senderSettle (Rejected message) s)
  | Close =>
      let s1 := if isCompleted w then senderSettle (Resolved (s_taskId s)) s else s in
      if closeListener s then
        let w1 := updateTask (setStatus completed) w in
        let w2 :=
          match currentTask w1 with
          | Some t => if onCompleteCallback w1 then notify (OnComplete t) w1 else w1
          | None => w1
          end in
        (w2, s1)
      else (w, s1)
  end.

Fixpoint sender_run (w : World) (s : Sender) (events : list SocketEvent)
    : World * Sender :=
  match events with
  | [] => (w, s)
  | e :: rest => let '(w1, s1) := sender_on w s e in sender_run w1 s1 rest
  end.

Definition isChunkFrame (x : Wire) : bool :=
  match x with WBytes _ => true | _ => false end.

End Transfer.

(** ** The rest of the discovery service: host address, identifier,
    broadcast *)

Module FsText.

(** [fs.readFileSync(p, 'utf-8')]; [None] when it throws.  The bytes of the
    file are read back as the characters that were written. *)
Definition readFileSync (fs : gmap string Fs.Node) (p : string) : option string :=
  match Fs.lookup fs p with
  | Some (Fs.File content) => Some (string_of_list_byte content)
  | _ => None
  end.

(** [fs.writeFileSync(p, text)]; [None] when it throws (the target is a
    directory, or its parent is not one). *)
Definition writeFileSync (fs : gmap string Fs.Node) (p : string) (text : string)
    : option (gmap string Fs.Node) :=
  if Path.endsWithSlash p then None
  else
    match Fs.lookup fs p, Fs.lookup fs (Path.dirname p) with
    | Some Fs.Directory, _ => None
    | _, Some Fs.Directory => Some (<[p := Fs.File (list_byte_of_string text)]> fs)
    | _, _ => None
    end.

End FsText.

Module DiscoveryHost.

Import Discovery.

(** An entry of [os.networkInterfaces()]. *)
Record NetworkInterfaceInfo := mkInfo {
  family : string;
  internal : bool;
  address : string
}.

(** The inner loop of [getLocalIP]: the first external IPv4 address of one
    interface. *)
Fixpoint firstExternal (iface : list NetworkInterfaceInfo) : option string :=
  match iface with
  | [] => None
  | info :: rest =>
      if String.eqb (family info) "IPv4" && negb (internal info)
      then Some (address info)
      else firstExternal rest
  end.

(** The outer loop: interfaces in the order of [Object.keys]; an interface
    whose value is undefined is skipped. *)
Fixpoint scanInterfaces
    (interfaces : list (string * option (list NetworkInterfaceInfo))) : option string :=
  match interfaces with
  | [] => None
  | (_, None) :: rest => scanInterfaces rest
  | (_, Some iface) :: rest =>
      match firstExternal iface with
      | Some a => Some a
      | None => scanInterfaces rest
      end
  end.

Definition getLocalIP
    (interfaces : list (string * option (list NetworkInterfaceInfo))) : string :=
  match scanInterfaces interfaces with
  | Some a => a
  | None => "127.0.0.1"
  end.

(** [generateDeviceId]: [userData] is [app.getPath('userData')], [uuid] the
    value [crypto.randomUUID()] would give.  Returns the identifier and the
    file system it leaves. *)
Definition generateDeviceId (userData : string) (fs : gmap string Fs.Node)
    (uuid : string) : string * gmap string Fs.Node :=
  let configPath := Path.join userData "device-id" in
  match (if Fs.existsSync fs configPath
         then FsText.readFileSync fs configPath else None) with
  | Some stored => (stored, fs)
  | None =>
      let fs' :=
        match Fs.mkdirSync fs (Path.dirname configPath) with
        | Some fs1 =>
            match FsText.writeFileSync fs1 configPath uuid with
            | Some fs2 => fs2
            | None => fs1
            end
        | None => fs
        end in
      (uuid, fs')
  end.

(** The message built by [broadcast] in [startBroadcast] (and by
    [broadcastPresence]); [platform] is [process.platform]. *)
Definition broadcastMessage (st : State) (deviceName platform : string) (now : Z)
    : AnnounceMessage :=
  mkAnnounce "announce" (self_deviceId st) deviceName platform TRANSFER_PORT now.

End DiscoveryHost.

(** ** The IPC handlers that feed the transfer service ([ipc.ts]) *)

Module Ipc.

Import Transfer.
Local Open Scope Z_scope.

(** What [readdir] with [withFileTypes] and [stat] show of a folder: its
    entries in directory order, files with their size. *)
#[warnings="-register-all"]
Inductive Entry :=
| FileEntry (name : string) (bytes : Z)
| FolderEntry (name : string) (children : list Entry).

Fixpoint stripCommon (a b : list string) : list string * list string :=
  match a, b with
  | x :: a', y :: b' => if String.eqb x y then stripCommon a' b' else (a, b)
  | _, _ => (a, b)
  end.

(** [path.posix.relative(from, to)] for absolute arguments, which is what
    the folder dialog returns: one [..] for every component of [from] past
    the common prefix, then the remaining components of [to]. *)
Definition relative (from to : string) : string :=
  let segments := fun p =>
    Path.normalizeSegments (negb (Path.isAbsolute p)) [] (Path.split p) in
  let '(up, down) := stripCommon (segments from) (segments to) in
  Path.concatSegments (map (fun _ => "..") up ++ down).

(** One round of the loop of [scanDir] in the handler of
    ['dialog:openFolder']: the entry is pushed, and for a directory the
    scan of its content follows before the next entry. *)
Fixpoint scanEntry (basePath dirPath : string) (e : Entry) : list FileInfo :=
  match e with
  | FileEntry n bytes =>
      let fullPath := Path.join dirPath n in
      [mkFileInfo n bytes false fullPath (Some (relative basePath fullPath))]
  | FolderEntry n children =>
      let fullPath := Path.join dirPath n in
      mkFileInfo n 0 true fullPath (Some (relative basePath fullPath))
      :: (fix scanAll (l : list Entry) : list FileInfo :=
            match l with
            | [] => []
            | c :: rest => scanEntry basePath fullPath c ++ scanAll rest
            end) children
  end.

Fixpoint scanDir (dirPath basePath : string) (entries : list Entry) : list FileInfo :=
  match entries with
  | [] => []
  | e :: rest => scanEntry basePath dirPath e ++ scanDir dirPath basePath rest
  end.

(** The handler of ['dialog:openFolder']: [canceled] and [filePaths] are the
    answer of the dialog, [content] what the picked folder holds.  [None]
    when the handler rejects: a dialog that is not cancelled and has no
    path makes [readdir] throw. *)
Definition openFolder (canceled : bool) (filePaths : list string)
    (content : list Entry) : option (list FileInfo) :=
  if canceled then Some []
  else
    match filePaths with
    | folderPath :: _ => Some (scanDir folderPath folderPath content)
    | [] => None
    end.



End Ipc.

(** * Statements of the specification and concrete scenarios *)

Module DiscoveryScenario.

Import Discovery.
Local Open Scope Z_scope.

Definition peerAnnounce (declaredPort : Z) (sent : Z) : AnnounceMessage :=
  mkAnnounce "announce" "peer-1" "laptop" "linux" declaredPort sent.

Definition peerDevice (address : string) (on : bool) : Device :=
  mkDevice "peer-1" "laptop" address TRANSFER_PORT on desktop (Some "linux").

(** The registry after one announcement of the peer received at time 0. *)
Definition onePeer : State :=
  fst (run (init "self-0" false) [Message (Some (peerAnnounce 5201 0)) "192.168.1.7" 0]).

(** "The stored transfer port is the port declared in that announcement." *)
Definition announce_stores_declared_port : Prop :=
  forall st data address now d,
    JsMap.get (deviceId data) (devices (fst (handleAnnounce st data address now))) = Some d ->
    ip d = address /\ port d = msg_port data.

(** Registry invariant: every entry is stored under its own identifier,
    and keys are distinct. *)
Definition keyed (m : JsMap.t Device) : Prop :=
  List.NoDup (JsMap.keys m) /\ Forall (fun kv => id (snd kv) = fst kv) m.

End DiscoveryScenario.

Module TransferScenario.

Import Transfer.
Local Open Scope Z_scope.

Definition root : string := "/home/u/Downloads/LanDrop".

Definition homeDisk : gmap string Fs.Node :=
  {[ "/home" := Fs.Directory; "/home/u" := Fs.Directory;
     "/home/u/Downloads" := Fs.Directory; root := Fs.Directory ]}.

(** A receiving service with every callback registered; [g] is the global
    binding of [totalWrittenBytes], if any. *)
Definition receiverWorld (g : option Z) : World :=
  mkWorld root None true true true true homeDisk g [].

Definition entry (n : string) (bytes : Z) : FileInfo :=
  mkFileInfo n bytes false ("/src/" ++ n)%string None.

Definition directoryEntry (n : string) (bytes : Z) : FileInfo :=
  mkFileInfo n bytes true ("/src/" ++ n)%string None.

Definition chunk (content : string) : list byte :=
  let data := list_byte_of_string content in
  Buffer.writeUInt32BE (Buffer.lengthZ data) ++ data.

Definition fileOf (content : string) : option Fs.Node :=
  Some (Fs.File (list_byte_of_string content)).

(** The state in which [handleConnection] leaves the service and the
    connection when it has accepted a request for [fs] from 192.168.1.7:
    the callback has been told, the response is written, the task is
    current, the header is parsed and [receiveNextFile] has been called
    for entry 0. *)
Definition acceptedRequest (w : World) (fs : list FileInfo) (total : Z) : World * Conn :=
  let task := mkTask "task-1" "unknown" "192.168.1.7" fs total 0 pending receive 0 in
  let w1 := if onRequestCallback w then notify (OnRequest task) w else w in
  receiveNextFile (setTask (Some task) w1)
    (setHeaderParsed (socketWrite (WResponse true "接受传输") newConn)) fs 0.

(** A stand-in for [JSON.parse] on the header line of a request for [fs]. *)
Definition requestParser (fs : list FileInfo) (total : Z) : list byte -> option Header :=
  fun _ => Some (mkHeader "transfer_request" fs total).

(** The data phase: the ['data'] events that follow an accepted request. *)
Definition dataPhase (JSON_parse : list byte -> option Header) (accepted : bool)
    (w : World) (fs : list FileInfo) (total : Z) (events : list (list byte))
    : World * Conn :=
  let '(w1, c1) := acceptedRequest w fs total in
  socketDataAll JSON_parse accepted "192.168.1.7" "task-1" 0 w1 c1 events.

Definition twoFiles : list FileInfo := [entry "a.bin" 2; entry "b.bin" 3].

(** The stream [chunk "ab"; end marker] cut at frame boundaries and cut one
    byte before the end of the first frame. *)
Definition alignedEvents : list (list byte) := [chunk "ab"; endMarker].
Definition shiftedEvents : list (list byte) :=
  [take 5 (chunk "ab"); drop 5 (chunk "ab") ++ endMarker].

(** A sending service whose disk holds the two source files. *)
Definition senderWorld : World :=
  mkWorld root None true true true true
    {[ "/src/a.bin" := Fs.File (list_byte_of_string "aa");
       "/src/b.bin" := Fs.File (list_byte_of_string "bbb") ]} None [].

Definition peer : Discovery.Device :=
  Discovery.mkDevice "peer-1" "laptop" "192.168.1.7" 5201 true Discovery.desktop
    (Some "linux").

Definition reply (accept : bool) (message : string) : SocketEvent :=
  Data (Some (mkResponse "transfer_response" accept message)).

(** The [totalSize] fields of the requests written to a socket. *)
Definition requestTotals (ws : list Wire) : list Z :=
  omap (fun x => match x with WRequest _ total _ => Some total | _ => None end) ws.

(** "The sum of the declared sizes of the non-directory entries." *)
Definition fileBytes (fs : list FileInfo) : Z :=
  fold_right Z.add 0 (map size (filter (fun f => isDirectory f = false) fs)).

Definition directoryBytes (fs : list FileInfo) : Z :=
  fold_right Z.add 0 (map size (filter (fun f => isDirectory f = true) fs)).

(** C9 as stated. *)
Definition request_total_counts_files_only : Prop :=
  forall w device fs uuid now,
    let '(w1, s1) := sendFiles w device fs uuid now in
    requestTotals (socketWrites (snd (sender_on w1 s1 Connect))) = [fileBytes fs].

(** The statuses after which a task is discarded. *)
Definition isTerminal (s : Status) : bool :=
  match s with completed | failed => true | pending | transferring => false end.

(** C4 as stated, for the part about the initiator: after a rejecting
    reply the task is in a terminal state. *)
Definition rejection_is_terminal : Prop :=
  forall w device fs uuid now message,
    let '(w1, s1) := sendFiles w device fs uuid now in
    let '(w2, s2) := sender_run w1 s1 [Connect; reply false message; Close] in
    option_map (fun t => isTerminal (status t)) (currentTask w2) = Some true.

(** What the initiator is left with after a rejecting reply. *)
Definition rejectedOutcome (w0 : World) (fs : list FileInfo) (message : string)
    (r : World * Sender) : Prop :=
  socketWrites (snd r) = [WRequest (length fs) (sumSizes fs) fs]
  /\ filter (fun x => isChunkFrame x = true) (socketWrites (snd r)) = []
  /\ promise (snd r) = Rejected message
  /\ socketEnded (snd r) = true
  /\ option_map status (currentTask (fst r)) = Some pending
  /\ disk (fst r) = disk w0.

Definition hasParentSegment (n : string) : bool :=
  existsb Path.isDotDot (Path.split n).

Definition escaping (n : string) : bool := Path.isAbsolute n || hasParentSegment n.

(** C2 as stated: an entry whose name is absolute or has a parent segment
    is turned down with nothing created and no handle held. *)
Definition traversal_rejected : Prop :=
  forall w c fs i file,
    fs !! i = Some file ->
    escaping (name file) = true ->
    dataListener c = None ->
    disk (fst (receiveNextFile w c fs i)) = disk w
    /\ dataListener (snd (receiveNextFile w c fs i)) = None.

(** The components of a path after normalisation, and what it means for an
    absolute path to lie under a root. *)
Definition components (p : string) : list string :=
  Path.normalizeSegments (negb (Path.isAbsolute p)) [] (Path.split p).

Definition inside (dir p : string) : Prop :=
  Path.isAbsolute p = true /\ components dir `prefix_of` components p.

(** Components as [Path.split] produces them and as normalisation of an
    absolute path keeps them. *)
Fixpoint noSlash (seg : string) : bool :=
  match seg with
  | EmptyString => true
  | String c rest => negb (Path.isSlash c) && noSlash rest
  end.

Definition kept (seg : string) : Prop :=
  Path.isSkipped seg = false /\ Path.isDotDot seg = false /\ noSlash seg = true.

End TransferScenario.

Module DiscoveryMoreScenario.

Import Discovery DiscoveryHost DiscoveryScenario.
Local Open Scope Z_scope.

(** The devices for which 'device-discovered' was emitted under key [k]. *)
Definition discoveredEvents (k : string) (evs : list Event) : list Device :=
  omap (fun e => match e with
                 | DeviceDiscovered d => if String.eqb (id d) k then Some d else None
                 | _ => None
                 end) evs.

(** The record [handleAnnounce] stores for an announcement. *)
Definition deviceOf (data : AnnounceMessage) (address : string) : Device :=
  mkDevice (deviceId data) (deviceName data) address TRANSFER_PORT true
    (getDeviceType (msg_platform data)) (Some (msg_platform data)).

(** The external IPv4 addresses of all interfaces, in iteration order. *)
Definition externalAddresses
    (interfaces : list (string * option (list NetworkInterfaceInfo))) : list string :=
  flat_map
    (fun entry =>
       match snd entry with
       | Some iface =>
           map address
             (List.filter
                (fun info => String.eqb (family info) "IPv4" && negb (internal info))
                iface)
       | None => []
       end)
    interfaces.

(** Every device of the registry has a last-seen time. *)
Definition allSeen (st : State) : Prop :=
  forall k, In k (JsMap.keys (devices st)) -> exists t, lastSeen st !! k = Some t.

Definition laptopInterfaces : list (string * option (list NetworkInterfaceInfo)) :=
  [("lo", Some [mkInfo "IPv4" true "127.0.0.1"; mkInfo "IPv6" true "::1"]);
   ("tun0", None);
   ("wlan0", Some [mkInfo "IPv6" false "fe80::1"; mkInfo "IPv4" false "192.168.1.5"]);
   ("eth0", Some [mkInfo "IPv4" false "10.0.0.9"])].

Definition emptyHome : gmap string Fs.Node :=
  {[ "/home" := Fs.Directory; "/home/u" := Fs.Directory ]}.

End DiscoveryMoreScenario.

Module TransferMoreScenario.

Import Transfer TransferScenario.
Local Open Scope Z_scope.

(** The bytes of the source file of an entry, as the sender's disk has
    them. *)
Definition sourceOf (w : World) (f : FileInfo) : list byte :=
  match Fs.lookup (disk w) (path f) with
  | Some (Fs.File content) => content
  | _ => []
  end.

Definition readable (w : World) (f : FileInfo) : Prop :=
  exists content, Fs.lookup (disk w) (path f) = Some (Fs.File content).

(** A chunk as [readAndSend] cuts it: between 1 and 65536 bytes. *)
Definition goodChunk (c : list byte) : Prop :=
  1 <= Buffer.lengthZ c <= CHUNK_SIZE.

(** What a stretch of sending leaves alone on the socket, and what it does
    to the service: the disk is untouched and the task has [n] more
    transferred bytes. *)
Definition sameSocket (s s' : Sender) : Prop :=
  socketEnded s' = socketEnded s /\ promise s' = promise s
  /\ closeListener s' = closeListener s.

Definition advanced (n : Z) (w w' : World) : Prop :=
  disk w' = disk w
  /\ currentTask w'
     = option_map (fun t => setTransferred (transferredSize t + n) t) (currentTask w).

Definition isClose (e : SocketEvent) : bool :=
  match e with Close => true | _ => false end.

(** The sender right after [sendFiles] and the events of its socket. *)
Definition session (w : World) (device : Discovery.Device) (fs : list FileInfo)
    (uuid : string) (now : Z) (events : list SocketEvent) : World * Sender :=
  sender_run (fst (sendFiles w device fs uuid now))
             (snd (sendFiles w device fs uuid now)) events.

(** What the service goes through while a send is in flight: the events of
    the send's own socket and, in between, whatever another session or an
    IPC call does to the service ([this.currentTask] and the other fields
    are shared by every connection). *)
Inductive ServiceEvent :=
| OnSocket (e : SocketEvent)
| Elsewhere (g : World -> World).

Definition service_on (w : World) (s : Sender) (e : ServiceEvent) : World * Sender :=
  match e with
  | OnSocket e' => sender_on w s e'
  | Elsewhere g => (g w, s)
  end.

Fixpoint service_run (w : World) (s : Sender) (events : list ServiceEvent)
    : World * Sender :=
  match events with
  | [] => (w, s)
  | e :: rest => let '(w1, s1) := service_on w s e in service_run w1 s1 rest
  end.

Definition isOwnClose (e : ServiceEvent) : bool :=
  match e with OnSocket Close => true | _ => false end.

(** A step taken elsewhere that leaves the send its task: a current task
    that is not completed is still the current task afterwards (the same
    identifier), updated perhaps, and still not completed. *)
Definition leavesUncompleted (g : World -> World) : Prop :=
  forall w t, currentTask w = Some t -> status t <> completed ->
    exists t', currentTask (g w) = Some t' /\ id t' = id t /\ status t' <> completed.

Definition undisturbed (e : ServiceEvent) : Prop :=
  match e with
  | OnSocket _ => True
  | Elsewhere g => leavesUncompleted g
  end.

(** The sender right after [sendFiles] and what the service goes through
    from then on. *)
Definition serviceSession (w : World) (device : Discovery.Device)
    (fs : list FileInfo) (uuid : string) (now : Z) (events : list ServiceEvent)
    : World * Sender :=
  service_run (fst (sendFiles w device fs uuid now))
              (snd (sendFiles w device fs uuid now)) events.

(** The task of a send is still the current one and not completed, and its
    promise is not resolved. *)
Definition pendingSend (uuid : string) (r : World * Sender) : Prop :=
  (exists t, currentTask (fst r) = Some t /\ id t = uuid /\ status t <> completed)
  /\ (forall taskId, promise (snd r) <> Resolved taskId).

(** The data phase with the timing of each event given. *)
Definition dataPhaseTimed (JSON_parse : list byte -> option Header) (accepted : bool)
    (w : World) (fs : list FileInfo) (total : Z) (events : list (bool * list byte))
    : World * Conn :=
  socketDataTimedAll JSON_parse accepted "192.168.1.7" "task-1" 0
    (fst (acceptedRequest w fs total)) (snd (acceptedRequest w fs total)) events.

(** An event that cannot reach the chunk branch of the one-shot listener:
    it is emitted before the listener is registered, or it is shorter than
    a frame header. *)
Definition unheardOrShort (e : bool * list byte) : bool :=
  negb (fst e) || (Buffer.lengthZ (snd e) <? 4).

(** The bytes of the files under an entry, at any depth. *)
Fixpoint treeBytes (e : Ipc.Entry) : Z :=
  match e with
  | Ipc.FileEntry _ bytes => bytes
  | Ipc.FolderEntry _ children =>
      (fix total (l : list Ipc.Entry) : Z :=
         match l with
         | [] => 0
         | c :: rest => treeBytes c + total rest
         end) children
  end.

Fixpoint folderBytes (l : list Ipc.Entry) : Z :=
  match l with
  | [] => 0
  | e :: rest => treeBytes e + folderBytes rest
  end.

(** The names from the picked folder down to each entry, in scan order. *)
Fixpoint namePaths (above : list string) (e : Ipc.Entry) : list (list string) :=
  match e with
  | Ipc.FileEntry n _ => [above ++ [n]]
  | Ipc.FolderEntry n children =>
      (above ++ [n])
      :: (fix all (l : list Ipc.Entry) : list (list string) :=
            match l with
            | [] => []
            | c :: rest => namePaths (above ++ [n]) c ++ all rest
            end) children
  end.

Fixpoint folderPaths (above : list string) (l : list Ipc.Entry) : list (list string) :=
  match l with
  | [] => []
  | e :: rest => namePaths above e ++ folderPaths above rest
  end.

(** Entry names as [readdir] gives them: not empty, not [.] or [..], no
    separator. *)
Fixpoint wellNamed (e : Ipc.Entry) : Prop :=
  match e with
  | Ipc.FileEntry n _ => kept n
  | Ipc.FolderEntry n children =>
      kept n
      /\ (fix all (l : list Ipc.Entry) : Prop :=
            match l with
            | [] => True
            | c :: rest => wellNamed c /\ all rest
            end) children
  end.

Fixpoint allWellNamed (l : list Ipc.Entry) : Prop :=
  match l with
  | [] => True
  | e :: rest => wellNamed e /\ allWellNamed rest
  end.

Definition holiday : list Ipc.Entry :=
  [Ipc.FolderEntry "photos" [Ipc.FileEntry "a.jpg" 700; Ipc.FolderEntry "raw" []];
   Ipc.FileEntry "notes.txt" 12].

End TransferMoreScenario.

(** * Properties *)

(** ** Facts about [JsMap] *)

Module JsMapFacts.

Import JsMap.

Lemma get_set_eq {V} k (v : V) m : get k (set k v m) = Some v.
Proof.
  induction m as [|[k' v'] m IH]; simpl.
  - now rewrite String.eqb_refl.
  - destruct (String.eqb k k') eqn:E; simpl.
    + now rewrite String.eqb_refl.
    + now rewrite E.
Qed.

Lemma get_set_ne {V} k k' (v : V) m : k <> k' -> get k' (set k v m) = get k' m.
Proof.
  intros Hne. induction m as [|[k0 v0] m IH]; simpl.
  - destruct (String.eqb_spec k' k); congruence.
  - destruct (String.eqb_spec k k0) as [->|Hk]; simpl.
    + destruct (String.eqb_spec k' k0); congruence.
    + destruct (String.eqb_spec k' k0); congruence.
Qed.

Lemma get_None_keys {V} k (m : t V) : get k m = None <-> ~ In k (keys m).
Proof.
  induction m as [|[k' v'] m IH]; simpl.
  - tauto.
  - destruct (String.eqb_spec k k') as [->|Hk].
    + split; [discriminate | intros H; exfalso; apply H; now left].
    + rewrite IH. split.
      * intros H [E|E]; [congruence | tauto].
      * intros H E; apply H; now right.
Qed.

Lemma keys_set_in {V} k (v : V) m k0 :
  In k0 (keys (set k v m)) <-> k0 = k \/ In k0 (keys m).
Proof.
  induction m as [|[k' v'] m IH]; simpl.
  - intuition congruence.
  - destruct (String.eqb_spec k k') as [->|Hk]; simpl.
    + intuition congruence.
    + rewrite IH. intuition congruence.
Qed.

Lemma keys_set_NoDup {V} k (v : V) m :
  List.NoDup (keys m) -> List.NoDup (keys (set k v m)).
Proof.
  induction m as [|[k' v'] m IH]; simpl; intros Hnd.
  - constructor; [intros [] | constructor].
  - inversion Hnd as [|? ? Hnotin Hnd']; subst.
    destruct (String.eqb_spec k k') as [->|Hk]; simpl.
    + now constructor.
    + constructor; [|now apply IH].
      intros Hin. apply keys_set_in in Hin as [E|Hin]; [congruence | tauto].
Qed.

End JsMapFacts.

(** ** The device registry *)

Module DiscoveryProps.

Import Discovery DiscoveryScenario.
Local Open Scope Z_scope.

Lemma keyed_ids m : keyed m -> List.NoDup (map (fun kv => id (snd kv)) m).
Proof.
  intros [Hnd Hall].
  replace (map (fun kv => id (snd kv)) m) with (JsMap.keys m); [exact Hnd|].
  clear Hnd. unfold JsMap.keys. induction Hall as [|kv m Hkv _ IH]; simpl; [reflexivity|].
  now rewrite Hkv, IH.
Qed.

Lemma set_Forall {V} (P : string * V -> Prop) k v m :
  P (k, v) -> Forall P m -> Forall P (JsMap.set k v m).
Proof.
  intros Hkv Hall. induction Hall as [|[k' v'] m Hx Hm IH]; simpl.
  - now constructor.
  - destruct (String.eqb k k'); now constructor.
Qed.

Lemma handleAnnounce_keyed st data address now :
  keyed (devices st) -> keyed (devices (fst (handleAnnounce st data address now))).
Proof.
  intros [Hnd Hall]. split; simpl.
  - now apply JsMapFacts.keys_set_NoDup.
  - now apply set_Forall.
Qed.

Lemma cleanup_keys st now :
  JsMap.keys (devices (fst (cleanup st now))) = JsMap.keys (devices st).
Proof.
  unfold JsMap.keys; simpl. rewrite map_map. apply map_ext.
  intros [k d]; simpl. now destruct (timedOut st now k).
Qed.

Lemma cleanup_keyed st now :
  keyed (devices st) -> keyed (devices (fst (cleanup st now))).
Proof.
  intros [Hnd Hall]. split.
  - now rewrite cleanup_keys.
  - simpl. clear Hnd. induction Hall as [|[k d] m Hkd Hm IH]; simpl.
    + constructor.
    + constructor; [|exact IH]. simpl in *. now destruct (timedOut st now k).
Qed.

Lemma step_keyed st i : keyed (devices st) -> keyed (devices (fst (step st i))).
Proof.
  intros Hk. destruct i as [[data|] address now | now]; simpl.
  - destruct (_ && _); [now apply handleAnnounce_keyed | exact Hk].
  - exact Hk.
  - now apply cleanup_keyed.
Qed.

Lemma run_keyed inputs : forall st,
  keyed (devices st) -> keyed (devices (fst (run st inputs))).
Proof.
  induction inputs as [|i rest IH]; intros st Hk; simpl; [exact Hk|].
  pose proof (step_keyed st i Hk) as H1.
  destruct (step st i) as [st1 ev1]. specialize (IH st1 H1).
  now destruct (run st1 rest) as [st2 ev2].
Qed.

Lemma set_length {V} k (v : V) m :
  length (JsMap.set k v m) = if JsMap.has k m then length m else S (length m).
Proof.
  unfold JsMap.has. induction m as [|[k' v'] m IH]; simpl; [reflexivity|].
  destruct (String.eqb k k'); simpl; [reflexivity|].
  rewrite IH. now destruct (JsMap.get k m).
Qed.

Lemma keys_set {V} k (v : V) m :
  JsMap.keys (JsMap.set k v m)
  = if JsMap.has k m then JsMap.keys m else JsMap.keys m ++ [k].
Proof.
  unfold JsMap.keys, JsMap.has. induction m as [|[k' v'] m IH]; simpl; [reflexivity|].
  destruct (String.eqb_spec k k') as [->|Hk]; simpl; [reflexivity|].
  rewrite IH. now destruct (JsMap.get k m).
Qed.

Lemma get_set {V} k (v : V) m k0 :
  JsMap.get k0 (JsMap.set k v m)
  = if String.eqb k0 k then Some v else JsMap.get k0 m.
Proof.
  destruct (String.eqb_spec k0 k) as [->|Hk].
  - apply JsMapFacts.get_set_eq.
  - apply JsMapFacts.get_set_ne. congruence.
Qed.

(** C6.  After any sequence of received packets and cleanup ticks, no two
    entries of the registry carry the same device identifier (nor the same
    key).  An announcement for an identifier already present refreshes
    that single entry: the number of entries and the order of the keys are
    unchanged, the entry under the identifier becomes the record built
    from this announcement and its source address (online, with the fixed
    transfer port), its last-seen time becomes the time of arrival, and
    every other entry and last-seen time is left as it was.  An
    announcement for an absent identifier appends one entry. *)
Theorem registry_identifiers_unique (self : string) (window : bool)
    (inputs : list Input) :
  (let st := fst (run (init self window) inputs) in
   List.NoDup (map (fun kv => id (snd kv)) (devices st))
   /\ List.NoDup (JsMap.keys (devices st)))
  /\ (forall st data address now,
        length (devices (fst (handleAnnounce st data address now)))
        = if JsMap.has (deviceId data) (devices st)
          then length (devices st) else S (length (devices st)))
  /\ (forall st data address now,
        let st' := fst (handleAnnounce st data address now) in
        let refreshed :=
          {| id := deviceId data; name := deviceName data; ip := address;
             port := TRANSFER_PORT; online := true;
             type := getDeviceType (msg_platform data);
             platform := Some (msg_platform data) |} in
        JsMap.get (deviceId data) (devices st') = Some refreshed
        /\ lastSeen st' !! deviceId data = Some now
        /\ JsMap.keys (devices st')
           = (if JsMap.has (deviceId data) (devices st)
              then JsMap.keys (devices st)
              else JsMap.keys (devices st) ++ [deviceId data])
        /\ (forall k,
              JsMap.get k (devices st')
              = if String.eqb k (deviceId data) then Some refreshed
                else JsMap.get k (devices st))
        /\ (forall k,
              lastSeen st' !! k
              = if String.eqb k (deviceId data) then Some now
                else lastSeen st !! k)).
Proof.
  split; [|split].
  - assert (keyed (devices (fst (run (init self window) inputs)))) as Hk.
    { apply run_keyed. split; simpl; constructor. }
    split; [now apply keyed_ids | apply Hk].
  - intros st data address now. simpl. apply set_length.
  - intros st data address now st' refreshed. unfold st', refreshed.
    cbn [handleAnnounce fst devices lastSeen].
    split; [apply JsMapFacts.get_set_eq|].
    split; [apply lookup_insert_eq|].
    split; [apply keys_set|].
    split; [intros k; apply get_set|].
    intros k. destruct (String.eqb_spec k (deviceId data)) as [->|Hk].
    + apply lookup_insert_eq.
    + apply lookup_insert_ne. congruence.
Qed.

(** *** Addresses and ports *)

Lemma step_self st i : self_deviceId (fst (step st i)) = self_deviceId st.
Proof.
  destruct i as [[data|] address now | now]; simpl; try reflexivity.
  now destruct (_ && _).
Qed.

Lemma run_self inputs : forall st,
  self_deviceId (fst (run st inputs)) = self_deviceId st.
Proof.
  induction inputs as [|i rest IH]; intros st; simpl; [reflexivity|].
  pose proof (step_self st i) as H1. destruct (step st i) as [st1 ev1].
  specialize (IH st1). destruct (run st1 rest) as [st2 ev2]. simpl in *. congruence.
Qed.

Lemma run_snoc inputs i : forall st,
  fst (run st (inputs ++ [i])) = fst (step (fst (run st inputs)) i).
Proof.
  induction inputs as [|j rest IH]; intros st; simpl.
  - now destruct (step st i).
  - destruct (step st j) as [st1 ev1]. specialize (IH st1).
    destruct (run st1 (rest ++ [i])) as [st2 ev2].
    destruct (run st1 rest) as [st3 ev3]. exact IH.
Qed.

Lemma cleanup_get st now k :
  JsMap.get k (devices (fst (cleanup st now)))
  = option_map (fun d => if timedOut st now k then markOffline d else d)
      (JsMap.get k (devices st)).
Proof.
  simpl. induction (devices st) as [|[k' d'] m IH]; simpl; [reflexivity|].
  destruct (timedOut st now k') eqn:E; simpl;
    destruct (String.eqb_spec k k') as [->|Hne]; simpl; try exact IH.
  - now rewrite E.
  - now rewrite E.
Qed.

(** C5 (as amended).  Whatever the registry held before, once a packet that
    announces a foreign identifier has been handled the entry of that
    identifier carries the source address of the packet and the fixed
    transfer port 5201; the port field of the announcement is not read.  A
    cleanup tick changes neither. *)
Theorem announce_stores_source_address_and_fixed_port
    (st : State) (inputs : list Input) (data : AnnounceMessage)
    (address : string) (now : Z) :
  msg_type data = "announce" ->
  deviceId data <> self_deviceId st ->
  (exists d,
      JsMap.get (deviceId data)
        (devices (fst (run st (inputs ++ [Message (Some data) address now])))) = Some d
      /\ ip d = address /\ port d = TRANSFER_PORT /\ TRANSFER_PORT = 5201)
  /\ (forall st' tick k d,
        JsMap.get k (devices st') = Some d ->
        exists d', JsMap.get k (devices (fst (cleanup st' tick))) = Some d'
                   /\ ip d' = ip d /\ port d' = port d).
Proof.
  intros Htype Hself. split.
  - rewrite run_snoc. simpl. rewrite Htype, run_self. simpl.
    destruct (String.eqb_spec (deviceId data) (self_deviceId st)) as [E|_];
      [contradiction|]. simpl.
    eexists. rewrite JsMapFacts.get_set_eq. repeat split.
  - intros st' tick k d Hget. rewrite cleanup_get, Hget. simpl.
    destruct (timedOut st' tick k); eexists; repeat split.
Qed.

Lemma announce_stores_source_address_and_fixed_port_witness :
  exists d,
    JsMap.get "peer-1"
      (devices (fst (run (init "self-0" false)
         ([Tick 500] ++ [Message (Some (peerAnnounce 6000 0)) "192.168.1.7" 1000]))))
    = Some d
    /\ ip d = "192.168.1.7" /\ port d = TRANSFER_PORT /\ TRANSFER_PORT = 5201.
Proof.
  apply (announce_stores_source_address_and_fixed_port
           (init "self-0" false) [Tick 500] (peerAnnounce 6000 0) "192.168.1.7" 1000).
  - reflexivity.
  - discriminate.
Defined.

(** C5 (as stated) fails: an announcement that declares port 6000 leaves
    port 5201 in the registry. *)
Lemma declared_port_is_ignored : ~ announce_stores_declared_port.
Proof.
  intros H.
  destruct (H (init "self-0" false) (peerAnnounce 6000 0) "192.168.1.7" 1000
              (peerDevice "192.168.1.7" true) eq_refl) as [_ Hport].
  discriminate Hport.
Qed.

(** *** Staleness *)

Lemma timedOut_spec st now k :
  timedOut st now k = true <-> now - lastSeenTime st k > DEVICE_TIMEOUT.
Proof. unfold timedOut. rewrite Z.gtb_ltb, Z.ltb_lt. lia. Qed.

Lemma stale_reported (f : string -> bool) k d (m : JsMap.t Device) :
  JsMap.get k m = Some d -> f k = true ->
  In (markOffline d)
     (map (fun kv => markOffline (snd kv)) (filter (fun kv => f (fst kv) = true) m)).
Proof.
  intros Hget Hf. induction m as [|[k' d'] m IH]; [discriminate|].
  rewrite filter_cons. cbn [JsMap.get fst] in *.
  destruct (String.eqb_spec k k') as [->|Hne].
  - injection Hget as ->.
    destruct (decide (f k' = true)); [now left | contradiction].
  - destruct (decide (f k' = true)); [right|]; now apply IH.
Qed.

Lemma cleanup_reports st now k d :
  JsMap.get k (devices st) = Some d -> timedOut st now k = true ->
  In (DeviceOffline (markOffline d)) (snd (cleanup st now)).
Proof.
  intros Hget Hto. simpl. apply in_or_app. left. apply in_map.
  now apply (stale_reported (timedOut st now) k d).
Qed.

(** C7.  With the announcement interval at 3000 ms and the staleness window
    at 10000 ms, the cleanup tick marks offline, and reports, a device last
    heard 11000 ms ago, and leaves untouched a device last heard 8000 ms
    ago. *)
Theorem sweep_evicts_after_window (st : State) (k : string) (d : Device) (t : Z) :
  JsMap.get k (devices st) = Some d ->
  lastSeen st !! k = Some t ->
  BROADCAST_INTERVAL = 3000 /\ DEVICE_TIMEOUT = 10000
  /\ (JsMap.get k (devices (fst (cleanup st (t + 11000)))) = Some (markOffline d)
      /\ online (markOffline d) = false
      /\ In (DeviceOffline (markOffline d)) (snd (cleanup st (t + 11000))))
  /\ (JsMap.get k (devices (fst (cleanup st (t + 8000)))) = Some d
      /\ timedOut st (t + 8000) k = false).
Proof.
  intros Hget Hseen.
  assert (lastSeenTime st k = t) as Ht by (unfold lastSeenTime; now rewrite Hseen).
  assert (timedOut st (t + 11000) k = true) as H11.
  { apply timedOut_spec. rewrite Ht. unfold DEVICE_TIMEOUT. lia. }
  assert (timedOut st (t + 8000) k = false) as H8.
  { apply not_true_is_false. rewrite timedOut_spec, Ht. unfold DEVICE_TIMEOUT. lia. }
  repeat split.
  - now rewrite cleanup_get, Hget, H11.
  - now apply (cleanup_reports st _ k d).
  - now rewrite cleanup_get, Hget, H8.
  - exact H8.
Qed.

Lemma sweep_evicts_after_window_witness :
  BROADCAST_INTERVAL = 3000 /\ DEVICE_TIMEOUT = 10000
  /\ (JsMap.get "peer-1" (devices (fst (cleanup onePeer (0 + 11000))))
        = Some (markOffline (peerDevice "192.168.1.7" true))
      /\ online (markOffline (peerDevice "192.168.1.7" true)) = false
      /\ In (DeviceOffline (markOffline (peerDevice "192.168.1.7" true)))
            (snd (cleanup onePeer (0 + 11000))))
  /\ (JsMap.get "peer-1" (devices (fst (cleanup onePeer (0 + 8000))))
        = Some (peerDevice "192.168.1.7" true)
      /\ timedOut onePeer (0 + 8000) "peer-1" = false).
Proof.
  apply (sweep_evicts_after_window onePeer "peer-1" (peerDevice "192.168.1.7" true) 0).
  - reflexivity.
  - vm_compute. reflexivity.
Defined.

(** The scenario on a run: the peer announces itself at time 0; a tick
    8000 ms later still lists it, a tick 11000 ms later does not. *)
Example silent_peer_on_a_run :
  getDevices (fst (run onePeer [Tick 8000])) = [peerDevice "192.168.1.7" true]
  /\ getDevices (fst (run onePeer [Tick 11000])) = [].
Proof. split; vm_compute; reflexivity. Qed.

(** C3 (the code departs from it).  A device that has timed out is reported
    offline by the cleanup tick that finds it so and again by every later
    tick: its entry stays in the map and the tick does not look at the
    [online] flag. *)
Theorem stale_device_reported_on_every_tick
    (st : State) (k : string) (d : Device) (now later : Z) :
  JsMap.get k (devices st) = Some d ->
  timedOut st now k = true ->
  now <= later ->
  In (DeviceOffline (markOffline d)) (snd (cleanup st now))
  /\ In (DeviceOffline (markOffline d)) (snd (cleanup (fst (cleanup st now)) later)).
Proof.
  intros Hget Hto Hle. split; [now apply (cleanup_reports st _ k d)|].
  replace (markOffline d) with (markOffline (markOffline d)) by reflexivity.
  apply (cleanup_reports _ _ k).
  - now rewrite cleanup_get, Hget, Hto.
  - apply timedOut_spec. apply timedOut_spec in Hto.
    unfold lastSeenTime in *. simpl. lia.
Qed.

Lemma stale_device_reported_on_every_tick_witness :
  In (DeviceOffline (markOffline (peerDevice "192.168.1.7" true)))
     (snd (cleanup onePeer 11000))
  /\ In (DeviceOffline (markOffline (peerDevice "192.168.1.7" true)))
        (snd (cleanup (fst (cleanup onePeer 11000)) 12000)).
Proof.
  apply (stale_device_reported_on_every_tick onePeer "peer-1"
           (peerDevice "192.168.1.7" true) 11000 12000).
  - reflexivity.
  - vm_compute. reflexivity.
  - lia.
Defined.

(** The same on a run: one announcement at time 0, then ticks at 11000,
    12000 and 13000 ms, give three offline events for the one device. *)
Example offline_event_repeats :
  offlineEvents "peer-1"
    (snd (run (init "self-0" false)
            [Message (Some (peerAnnounce 5201 0)) "192.168.1.7" 0;
             Tick 11000; Tick 12000; Tick 13000]))
  = [peerDevice "192.168.1.7" false; peerDevice "192.168.1.7" false;
     peerDevice "192.168.1.7" false].
Proof. vm_compute. reflexivity. Qed.

(** While announcements keep arriving within the window the device stays
    listed: a tick no later than 10000 ms after the last announcement
    leaves the entry as it is. *)
Lemma fresh_device_untouched st k d t now :
  JsMap.get k (devices st) = Some d ->
  lastSeen st !! k = Some t ->
  now - t <= DEVICE_TIMEOUT ->
  JsMap.get k (devices (fst (cleanup st now))) = Some d.
Proof.
  intros Hget Hseen Hle. rewrite cleanup_get, Hget. simpl.
  replace (timedOut st now k) with false; [reflexivity|].
  symmetry. apply not_true_is_false. rewrite timedOut_spec.
  unfold lastSeenTime. rewrite Hseen. lia.
Qed.

End DiscoveryProps.

(** ** Facts about [Path] *)

Module PathFacts.

Import Path TransferScenario.

Lemma split_nonempty s : split s <> [].
Proof.
  destruct s as [|c s]; simpl; [discriminate|].
  destruct (isSlash c); [discriminate|]. now destruct (split s).
Qed.

Lemma split_app_slash a b :
  split (a ++ String "/" b)%string = split a ++ split b.
Proof.
  induction a as [|c a IH]; simpl; [reflexivity|].
  rewrite IH. destruct (isSlash c); [reflexivity|].
  pose proof (split_nonempty a) as Hne.
  now destruct (split a).
Qed.

Lemma split_noSlash s : Forall (fun seg => noSlash seg = true) (split s).
Proof.
  induction s as [|c s IH]; simpl.
  - now repeat constructor.
  - destruct (isSlash c) eqn:E.
    + now constructor.
    + pose proof (split_nonempty s) as Hne.
      destruct (split s) as [|seg segs]; [contradiction|].
      inversion IH as [|? ? Hseg Hsegs]; subst.
      constructor; [|exact Hsegs]. simpl. now rewrite E, Hseg.
Qed.

Lemma split_single seg : noSlash seg = true -> split seg = [seg].
Proof.
  induction seg as [|c seg IH]; simpl; [reflexivity|].
  intros H. apply andb_prop in H as [Hc Hseg].
  apply negb_true_iff in Hc. rewrite Hc, (IH Hseg). reflexivity.
Qed.

Lemma split_concat segs :
  segs <> [] -> Forall (fun seg => noSlash seg = true) segs ->
  split (concatSegments segs) = segs.
Proof.
  intros Hne Hall.
  induction Hall as [|x l Hx Hl IH]; [contradiction|].
  destruct l as [|y l].
  - now apply split_single.
  - change (concatSegments (x :: y :: l))
      with (x ++ String "/" (concatSegments (y :: l)))%string.
    rewrite split_app_slash, IH, (split_single x Hx); [reflexivity | discriminate].
Qed.

Lemma normalizeSegments_app a l1 : forall res l2,
  normalizeSegments a res (l1 ++ l2)
  = normalizeSegments a (rev (normalizeSegments a res l1)) l2.
Proof.
  induction l1 as [|seg l1 IH]; intros res l2; simpl.
  - now rewrite rev_involutive.
  - destruct (isSkipped seg); [apply IH|].
    destruct (isDotDot seg); [|apply IH].
    destruct res as [|top res']; [apply IH|].
    destruct (isDotDot top); apply IH.
Qed.

Lemma normalizeSegments_kept a l : forall res,
  Forall kept l -> normalizeSegments a res l = rev res ++ l.
Proof.
  induction l as [|seg l IH]; intros res Hall; simpl.
  - now rewrite app_nil_r.
  - inversion Hall as [|? ? [Hs [Hd _]] Hl]; subst.
    rewrite Hs, Hd, (IH _ Hl). simpl. now rewrite <- app_assoc.
Qed.

Lemma normalizeSegments_extends a l : forall res,
  existsb isDotDot l = false ->
  exists k, normalizeSegments a res l = rev res ++ k.
Proof.
  induction l as [|seg l IH]; intros res Hno; simpl in *.
  - exists []. now rewrite app_nil_r.
  - apply orb_false_elim in Hno as [Hd Hl]. rewrite Hd.
    destruct (isSkipped seg); [now apply IH|].
    destruct (IH (seg :: res) Hl) as [k Hk]. exists (seg :: k).
    rewrite Hk. simpl. now rewrite <- app_assoc.
Qed.

Lemma normalizeSegments_absolute_kept l : forall res,
  Forall kept res -> Forall (fun seg => noSlash seg = true) l ->
  Forall kept (normalizeSegments false res l).
Proof.
  induction l as [|seg l IH]; intros res Hres Hl; simpl.
  - now apply Forall_rev.
  - inversion Hl as [|? ? Hseg Hl']; subst.
    destruct (isSkipped seg) eqn:Hs; [now apply IH|].
    destruct (isDotDot seg) eqn:Hd.
    + destruct res as [|top res']; [now apply IH|].
      inversion Hres as [|? ? Htop Hres']; subst.
      destruct (isDotDot top); now apply IH.
    + apply IH; [|exact Hl']. constructor; [|exact Hres]. now repeat split.
Qed.

Lemma absolute_nonempty q : isAbsolute q = true -> String.eqb q "" = false.
Proof. destruct q; [discriminate | reflexivity]. Qed.

Lemma components_absolute q :
  isAbsolute q = true -> components q = normalizeSegments false [] (split q).
Proof. intros H. unfold components. now rewrite H. Qed.

Lemma components_kept q : isAbsolute q = true -> Forall kept (components q).
Proof.
  intros H. rewrite (components_absolute q H).
  apply normalizeSegments_absolute_kept; [constructor | apply split_noSlash].
Qed.

Lemma components_rooted body :
  components (String "/" body) = normalizeSegments false [] (split body).
Proof. reflexivity. Qed.

Lemma normalizeSegments_trailing a res : normalizeSegments a res [""] = rev res.
Proof. reflexivity. Qed.

Lemma kept_noSlash l : Forall kept l -> Forall (fun seg => noSlash seg = true) l.
Proof. intros H. eapply Forall_impl; [exact H|]. now intros seg [_ [_ Hn]]. Qed.

(** Normalising an absolute path gives an absolute path with the same
    components. *)
Lemma normalize_absolute q :
  isAbsolute q = true ->
  isAbsolute (normalize q) = true /\ components (normalize q) = components q.
Proof.
  intros Habs. pose proof (components_kept q Habs) as Hkept.
  rewrite (components_absolute q Habs) in *.
  unfold normalize. rewrite (absolute_nonempty q Habs), Habs. simpl negb.
  set (N := normalizeSegments false [] (split q)) in *.
  destruct N as [|x N'] eqn:EN.
  - simpl. split; reflexivity.
  - assert (String.eqb (concatSegments (x :: N')) "" = false) as Hbody.
    { inversion Hkept as [|? ? [Hs _] _]; subst.
      destruct x as [|c x']; [discriminate Hs|].
      unfold concatSegments. simpl. now destruct N'. }
    rewrite Hbody.
    assert (split (concatSegments (x :: N')) = x :: N') as Hsplit.
    { apply split_concat; [discriminate | now apply kept_noSlash]. }
    destruct (endsWithSlash q).
    + split; [reflexivity|].
      change ("/" ++ (concatSegments (x :: N') ++ "/"))%string
        with (String "/" (concatSegments (x :: N') ++ String "/" ""))%string.
      rewrite components_rooted, split_app_slash, Hsplit.
      rewrite normalizeSegments_app, (normalizeSegments_kept _ _ [] Hkept).
      rewrite normalizeSegments_trailing, rev_involutive. reflexivity.
    + split; [reflexivity|].
      change ("/" ++ concatSegments (x :: N'))%string
        with (String "/" (concatSegments (x :: N'))).
      rewrite components_rooted, Hsplit.
      now rewrite (normalizeSegments_kept _ _ [] Hkept).
Qed.

(** Joining a name without parent segments to an absolute directory gives a
    path under that directory. *)
Lemma join_inside dir n :
  isAbsolute dir = true -> hasParentSegment n = false -> inside dir (join dir n).
Proof.
  intros Habs Hno. unfold join. rewrite (absolute_nonempty dir Habs).
  destruct (String.eqb n "").
  - destruct (normalize_absolute dir Habs) as [H1 H2].
    split; [exact H1|]. now rewrite H2.
  - assert (isAbsolute (dir ++ "/" ++ n)%string = true) as Habs'.
    { destruct dir; [discriminate | exact Habs]. }
    destruct (normalize_absolute _ Habs') as [H1 H2].
    split; [exact H1|]. rewrite H2.
    rewrite (components_absolute _ Habs'), (components_absolute _ Habs).
    change (dir ++ "/" ++ n)%string with (dir ++ String "/" n)%string.
    rewrite split_app_slash, normalizeSegments_app.
    destruct (normalizeSegments_extends false (split n)
                (rev (normalizeSegments false [] (split dir))) Hno) as [k Hk].
    rewrite Hk, rev_involutive. now exists k.
Qed.

End PathFacts.

(** ** The transfer service *)

Module TransferProps.

Import Transfer TransferScenario.
Local Open Scope Z_scope.

(** *** The request manifest *)

Lemma fold_left_sizes fs : forall acc,
  fold_left (fun sum f => sum + size f) fs acc
  = acc + fold_left (fun sum f => sum + size f) fs 0.
Proof.
  induction fs as [|f fs IH]; intros acc; cbn [fold_left]; [lia|].
  rewrite (IH (acc + size f)), (IH (0 + size f)). lia.
Qed.

Lemma sumSizes_split fs : sumSizes fs = fileBytes fs + directoryBytes fs.
Proof.
  unfold sumSizes, fileBytes, directoryBytes.
  induction fs as [|f fs IH]; simpl; [reflexivity|].
  rewrite fold_left_sizes, IH, !filter_cons.
  destruct (isDirectory f) eqn:E; simpl;
    repeat (destruct (decide _); try congruence); simpl; lia.
Qed.

(** C9 (as amended).  The [totalSize] of the request, and of the task, is
    the sum of the declared sizes of all entries of the list, directories
    included; it is the sum over the non-directory entries exactly when the
    sizes declared for directories add up to zero. *)
Theorem request_total_counts_every_entry
    (w : World) (device : Discovery.Device) (fs : list FileInfo)
    (uuid : string) (now : Z) :
  requestTotals
    (socketWrites (snd (sender_on (fst (sendFiles w device fs uuid now))
                                  (snd (sendFiles w device fs uuid now)) Connect)))
  = [fileBytes fs + directoryBytes fs]
  /\ option_map totalSize (currentTask (fst (sendFiles w device fs uuid now)))
     = Some (fileBytes fs + directoryBytes fs)
  /\ (sumSizes fs = fileBytes fs <-> directoryBytes fs = 0).
Proof.
  simpl. rewrite sumSizes_split. repeat split; lia.
Qed.

(** C9 (as stated) fails on a list with a directory entry of declared size
    4096 and a file of size 10: the request says 4106. *)
Lemma directory_sizes_are_counted : ~ request_total_counts_files_only.
Proof.
  intros H.
  specialize (H senderWorld peer [directoryEntry "d" 4096; entry "a.bin" 10] "task-1" 0).
  vm_compute in H. discriminate H.
Qed.

(** *** The download directory *)

(** C10.  [setDownloadDir] adopts [dir] when it exists and otherwise leaves
    the service as it was; the call always returns, and the directory can
    only have changed if [dir] exists. *)
Theorem setDownloadDir_only_existing (w : World) (dir : string) :
  (Fs.existsSync (disk w) dir = true ->
     getDownloadDir (setDownloadDir w dir) = dir)
  /\ (Fs.existsSync (disk w) dir = false -> setDownloadDir w dir = w)
  /\ (getDownloadDir (setDownloadDir w dir) <> getDownloadDir w ->
        Fs.existsSync (disk w) dir = true)
  /\ disk (setDownloadDir w dir) = disk w.
Proof.
  unfold setDownloadDir, getDownloadDir.
  destruct (Fs.existsSync (disk w) dir); simpl; repeat split; congruence.
Qed.

Lemma setDownloadDir_only_existing_witness :
  getDownloadDir (setDownloadDir (receiverWorld None) "/home/u") = "/home/u"
  /\ setDownloadDir (receiverWorld None) "/home/u/Desktop" = receiverWorld None.
Proof.
  split.
  - apply (proj1 (setDownloadDir_only_existing (receiverWorld None) "/home/u")).
    vm_compute. reflexivity.
  - apply (proj1 (proj2 (setDownloadDir_only_existing (receiverWorld None)
                           "/home/u/Desktop"))).
    vm_compute. reflexivity.
Defined.

(** *** Rejection *)

Lemma reject_branch_writes_nothing JSON_parse remoteAddress uuid now w c data :
  disk (fst (handleConnection_onData JSON_parse false remoteAddress uuid now w c data))
  = disk w
  /\ dataListener
       (snd (handleConnection_onData JSON_parse false remoteAddress uuid now w c data))
     = dataListener c.
Proof.
  unfold handleConnection_onData. simpl.
  destruct (headerParsed c); [now split|].
  destruct (Buffer.indexOfNewline _); [|now split].
  destruct (JSON_parse _) as [header|]; [|now split].
  destruct (String.eqb _ _); [|now split].
  simpl. destruct (onRequestCallback w); now split.
Qed.

(** C4 (as amended).  When the reply to a request is a rejection, the
    initiator has written the request and nothing else, so no chunk frame,
    it ends its socket and the promise of [sendFiles] is rejected with the
    message of the reply; the status of its task is still [pending], before
    and after the socket closes.  The branch of the responder that rejects
    touches no file and installs no data listener. *)
Theorem rejected_request_moves_no_data
    (w : World) (device : Discovery.Device) (fs : list FileInfo)
    (uuid : string) (now : Z) (message : string) :
  rejectedOutcome w fs message
    (sender_run (fst (sendFiles w device fs uuid now))
                (snd (sendFiles w device fs uuid now))
                [Connect; reply false message])
  /\ rejectedOutcome w fs message
       (sender_run (fst (sendFiles w device fs uuid now))
                   (snd (sendFiles w device fs uuid now))
                   [Connect; reply false message; Close])
  /\ (forall JSON_parse remoteAddress uuid' now' w' c data,
        disk (fst (handleConnection_onData JSON_parse false remoteAddress uuid' now'
                     w' c data)) = disk w'
        /\ dataListener (snd (handleConnection_onData JSON_parse false remoteAddress
                                uuid' now' w' c data)) = dataListener c).
Proof.
  split; [|split].
  - unfold rejectedOutcome. simpl. repeat split.
  - unfold rejectedOutcome. simpl. repeat split.
  - intros. apply reject_branch_writes_nothing.
Qed.

(** C4 (as stated) fails: after the rejection and the close of the socket
    the task is [pending], which is not a terminal status. *)
Lemma rejected_task_stays_pending : ~ rejection_is_terminal.
Proof.
  intros H. specialize (H senderWorld peer twoFiles "task-1" 0 "busy").
  vm_compute in H. discriminate H.
Qed.

(** For comparison, an accepting reply makes the initiator write one frame
    per chunk and the end marker. *)
Example accepted_request_streams :
  socketWrites
    (snd (sender_run (fst (sendFiles senderWorld peer twoFiles "task-1" 0))
                     (snd (sendFiles senderWorld peer twoFiles "task-1" 0))
                     [Connect; reply true "ok"]))
  = [WRequest 2 5 twoFiles; WBytes (chunk "aa"); WBytes (chunk "bbb"); WBytes endMarker].
Proof. vm_compute. reflexivity. Qed.

(** *** From the header to the data phase *)

Lemma indexOfNewline_line line :
  Buffer.indexOfNewline line = None ->
  Buffer.indexOfNewline (line ++ [x0a]) = Some (length line).
Proof.
  induction line as [|b line IH]; simpl; [reflexivity|].
  destruct (Byte.eqb b x0a); [discriminate|].
  destruct (Buffer.indexOfNewline line); [discriminate|].
  intros _. now rewrite IH.
Qed.

(** A first event that holds exactly the header line of a request brings
    the connection to [acceptedRequest]. *)
Lemma header_line_reaches_acceptedRequest JSON_parse line fs total w :
  Buffer.indexOfNewline line = None ->
  JSON_parse line = Some (mkHeader "transfer_request" fs total) ->
  handleConnection_onData JSON_parse true "192.168.1.7" "task-1" 0 w newConn
    (line ++ [x0a])
  = acceptedRequest w fs total.
Proof.
  intros Hline Hparse. unfold handleConnection_onData, acceptedRequest.
  cbn [buffer setBuffer newConn headerParsed app].
  rewrite (indexOfNewline_line line Hline).
  rewrite take_app_length, Hparse. cbn [h_type h_files h_totalSize String.eqb negb].
  change (String.eqb "transfer_request" "transfer_request") with true. cbn iota.
  replace (drop (S (length line)) (line ++ [x0a])) with (@nil byte).
  - reflexivity.
  - rewrite drop_app_ge by lia.
    now replace (S (length line) - length line)%nat with 1%nat by lia.
Qed.

(** Bytes that arrive in the same event as the header are never handed to
    the chunk listener: here the whole chunk is lost and the file stays
    empty. *)
Example chunk_after_header_is_lost :
  disk (fst (socketDataAll (requestParser [entry "a.bin" 2] 2) true
               "192.168.1.7" "task-1" 0 (receiverWorld None) newConn
               [[x7b; x7d; x0a] ++ chunk "ab"; endMarker]))
    !! "/home/u/Downloads/LanDrop/a.bin" = fileOf "".
Proof. vm_compute. reflexivity. Qed.

(** *** The data phase *)

(** Whatever has been written so far and whatever sizes the manifest
    declares, an event that is not the four-byte zero frame has its chunk
    written through the handle that is open, and the listener that remains
    is still on that entry. *)
Lemma chunk_goes_to_the_open_handle w c l data :
  Buffer.lengthZ data >= 4 ->
  (Buffer.lengthZ data =? 4) && (Buffer.readUInt32BE data =? 0) = false ->
  disk (fst (receiveData_listener w c l data))
  = Fs.write (disk w) (currentFileHandle l)
      (Buffer.slice 4 (4 + Buffer.readUInt32BE data) data)
  /\ (forall l', dataListener (snd (receiveData_listener w c l data)) = Some l' ->
        currentFileHandle l' = currentFileHandle l
        /\ l_fileIndex l' = l_fileIndex l).
Proof.
  intros Hlen Hmark. unfold receiveData_listener. rewrite Hmark.
  replace (Buffer.lengthZ data <? 4) with false by (symmetry; apply Z.ltb_ge; lia).
  simpl. destruct (totalWrittenBytes w) as [total|].
  - destruct (currentTask w); [destruct (onProgressCallback w)|]; simpl;
      (split; [reflexivity | now intros l' [= <-]]).
  - simpl. split; [reflexivity | discriminate].
Qed.

(** C1 (the code departs from it).  Two files of 2 and 3 bytes are sent the
    way [sendNextFile] sends them: one chunk each, then the end marker.
    The second file never receives its three bytes.  Without a global
    [totalWrittenBytes] the listener fails after the first write and the
    second file is not even created; with one, both chunks go to the first
    file and the second is created empty when the end marker arrives. *)
Theorem second_file_never_receives_its_bytes
    (JSON_parse : list byte -> option Header) (accepted : bool) (g : option Z) :
  let w := fst (dataPhase JSON_parse accepted (receiverWorld g) twoFiles 5
                  [chunk "aa"; chunk "bbb"; endMarker]) in
  disk w !! "/home/u/Downloads/LanDrop/b.bin" <> fileOf "bbb"
  /\ match g with
     | None =>
         disk w !! "/home/u/Downloads/LanDrop/a.bin" = fileOf "aa"
         /\ disk w !! "/home/u/Downloads/LanDrop/b.bin" = None
     | Some _ =>
         disk w !! "/home/u/Downloads/LanDrop/a.bin" = fileOf "aabbb"
         /\ disk w !! "/home/u/Downloads/LanDrop/b.bin" = fileOf ""
     end.
Proof.
  destruct g as [total|]; vm_compute; repeat split; discriminate.
Qed.

(** C8 (the code departs from it).  One byte stream, a two-byte chunk and
    the end marker, delivered in two ways: cut at the frame boundary the
    file receives both bytes; cut one byte earlier it does not, because each
    event is read as a frame of its own. *)
Theorem segmentation_changes_the_file
    (JSON_parse : list byte -> option Header) (accepted : bool) (g : option Z) :
  concat alignedEvents = concat shiftedEvents
  /\ disk (fst (dataPhase JSON_parse accepted (receiverWorld g) [entry "a.bin" 2] 2
                  alignedEvents))
       !! "/home/u/Downloads/LanDrop/a.bin" = fileOf "ab"
  /\ disk (fst (dataPhase JSON_parse accepted (receiverWorld g) [entry "a.bin" 2] 2
                  shiftedEvents))
       !! "/home/u/Downloads/LanDrop/a.bin" <> fileOf "ab".
Proof.
  destruct g as [total|]; vm_compute; repeat split; discriminate.
Qed.

(** *** Destination paths *)

Lemma openWrite_creates d p d' :
  Fs.openWrite d p = Some d' -> d' !! p = Some (Fs.File []).
Proof.
  unfold Fs.openWrite. destruct (Path.endsWithSlash p); [discriminate|].
  destruct (Fs.lookup d p) as [[content|]|];
    destruct (Fs.lookup d (Path.dirname p)) as [[content'|]|];
    try discriminate; intros [= <-]; apply lookup_insert_eq.
Qed.

(** C2 (as amended).  [receiveNextFile] has no rejection step: whenever it
    opens a handle for an entry, the handle is on
    [path.join(downloadDir, name)] and an empty file exists there.  If the
    download directory is absolute and the name has no parent segment, that
    path lies under the download directory; this covers names that start
    with a separator. *)
Theorem opened_path_is_the_joined_name
    (w : World) (c : Conn) (fs : list FileInfo) (i : nat) (file : FileInfo)
    (l : Listener) :
  fs !! i = Some file ->
  dataListener c = None ->
  dataListener (snd (receiveNextFile w c fs i)) = Some l ->
  currentFileHandle l = Path.join (downloadDir w) (name file)
  /\ disk (fst (receiveNextFile w c fs i)) !! currentFileHandle l = Some (Fs.File [])
  /\ (Path.isAbsolute (downloadDir w) = true ->
      hasParentSegment (name file) = false ->
      inside (downloadDir w) (currentFileHandle l)).
Proof.
  intros Hfile Hnone. unfold receiveNextFile. rewrite Hfile.
  destruct (if Fs.existsSync (disk w) _ then _ else _) as [d1|];
    [|simpl; congruence].
  destruct (Fs.openWrite d1 _) as [d2|] eqn:Hopen; [|simpl; congruence].
  simpl. intros [= <-]. simpl. split; [reflexivity | split].
  - now apply (openWrite_creates d1).
  - intros Habs Hno. now apply PathFacts.join_inside.
Qed.

Lemma opened_path_is_the_joined_name_witness :
  "/home/u/Downloads/LanDrop/etc/passwd" = Path.join root "/etc/passwd"
  /\ disk (fst (receiveNextFile (receiverWorld None) newConn [entry "/etc/passwd" 4] 0))
       !! "/home/u/Downloads/LanDrop/etc/passwd" = Some (Fs.File [])
  /\ inside root "/home/u/Downloads/LanDrop/etc/passwd".
Proof.
  destruct (opened_path_is_the_joined_name (receiverWorld None) newConn
              [entry "/etc/passwd" 4] 0 (entry "/etc/passwd" 4)
              (mkListener [entry "/etc/passwd" 4] 0
                 "/home/u/Downloads/LanDrop/etc/passwd" 0))
    as [Hpath [Hfile Hinside]].
  - reflexivity.
  - reflexivity.
  - vm_compute. reflexivity.
  - split; [exact Hpath | split; [exact Hfile | apply Hinside; reflexivity]].
Defined.

(** C2 (as stated) fails: the entry named [../secret] is not turned down; a
    listener holding a handle is installed for it. *)
Lemma parent_segments_are_not_rejected : ~ traversal_rejected.
Proof.
  intros H.
  destruct (H (receiverWorld None) newConn [entry "../secret" 2] 0%nat
              (entry "../secret" 2) eq_refl eq_refl eq_refl) as [_ Hl].
  vm_compute in Hl. discriminate Hl.
Qed.

(** The file of that entry is created next to the download directory, not
    under it. *)
Example secret_is_created_outside_root :
  disk (fst (receiveNextFile (receiverWorld None) newConn [entry "../secret" 2] 0))
    !! "/home/u/Downloads/secret" = Some (Fs.File [])
  /\ ~ inside root "/home/u/Downloads/secret".
Proof.
  split; [vm_compute; reflexivity|].
  intros [_ [k Hk]]. vm_compute in Hk. discriminate Hk.
Qed.

End TransferProps.

(** ** More on the device registry *)

Module DiscoveryMore.

Import Discovery DiscoveryHost DiscoveryScenario DiscoveryMoreScenario.
Local Open Scope Z_scope.

Lemma cleanup_has st now k :
  JsMap.has k (devices (fst (cleanup st now))) = JsMap.has k (devices st).
Proof.
  unfold JsMap.has. rewrite DiscoveryProps.cleanup_get.
  now destruct (JsMap.get k (devices st)).
Qed.

Lemma set_has {V} k k' (v : V) m :
  JsMap.has k' (JsMap.set k v m) = if String.eqb k k' then true else JsMap.has k' m.
Proof.
  unfold JsMap.has. destruct (String.eqb_spec k k') as [->|Hne].
  - now rewrite JsMapFacts.get_set_eq.
  - now rewrite JsMapFacts.get_set_ne.
Qed.

Lemma discovered_offline k l : discoveredEvents k (map DeviceOffline l) = [].
Proof. induction l as [|d l IH]; [reflexivity | exact IH]. Qed.

Lemma discovered_cleanup k st now : discoveredEvents k (snd (cleanup st now)) = [].
Proof.
  unfold cleanup. cbn [snd]. unfold discoveredEvents. rewrite omap_app.
  pose proof (discovered_offline k) as Hoff. unfold discoveredEvents in Hoff.
  rewrite Hoff. now destruct (mainWindow st).
Qed.

(** How many more 'device-discovered' events key [k] can still get. *)
Lemma discovered_budget_step k st i :
  (length (discoveredEvents k (snd (step st i)))
   + (if JsMap.has k (devices (fst (step st i))) then 0 else 1)
   <= (if JsMap.has k (devices st) then 0 else 1))%nat.
Proof.
  destruct i as [[data|] address now | now].
  - simpl. destruct (_ && _); simpl; [|lia].
    unfold discoveredEvents. rewrite omap_app, length_app, set_has.
    destruct (mainWindow st); simpl;
      destruct (JsMap.has (deviceId data) (devices st)) eqn:Hhas; simpl;
      destruct (String.eqb_spec (deviceId data) k) as [<-|Hne]; simpl;
      rewrite ?Hhas; simpl; try lia;
      destruct (JsMap.has k (devices st)); simpl; lia.
  - simpl. lia.
  - change (step st (Tick now)) with (cleanup st now).
    rewrite discovered_cleanup, cleanup_has. simpl. lia.
Qed.

Lemma discovered_budget_run k inputs : forall st,
  (length (discoveredEvents k (snd (run st inputs)))
   <= (if JsMap.has k (devices st) then 0 else 1))%nat.
Proof.
  induction inputs as [|i rest IH]; intros st; simpl.
  - destruct (JsMap.has k (devices st)); simpl; lia.
  - pose proof (discovered_budget_step k st i) as Hstep.
    destruct (step st i) as [st1 ev1]. specialize (IH st1).
    destruct (run st1 rest) as [st2 ev2]. simpl in *.
    unfold discoveredEvents in *. rewrite omap_app, length_app. lia.
Qed.

(** X1.  Over any sequence of packets and cleanup ticks, 'device-discovered'
    is emitted at most once for an identifier: a device that was marked
    offline and announces itself again is refreshed without the event. *)
Theorem discovered_at_most_once (self : string) (window : bool)
    (inputs : list Input) (k : string) :
  (length (discoveredEvents k (snd (run (init self window) inputs))) <= 1)%nat.
Proof. apply (discovered_budget_run k inputs (init self window)). Qed.

Lemma self_absent_step st i :
  JsMap.get (self_deviceId st) (devices st) = None ->
  JsMap.get (self_deviceId st) (devices (fst (step st i))) = None.
Proof.
  intros Hnone. destruct i as [[data|] address now | now]; simpl; try exact Hnone.
  - destruct (String.eqb (msg_type data) "announce"); simpl; [|exact Hnone].
    destruct (String.eqb_spec (deviceId data) (self_deviceId st)) as [E|Hne];
      simpl; [exact Hnone|].
    now rewrite JsMapFacts.get_set_ne.
  - change (JsMap.get (self_deviceId st) (devices (fst (cleanup st now))) = None).
    now rewrite DiscoveryProps.cleanup_get, Hnone.
Qed.

Lemma self_absent_run inputs : forall st,
  JsMap.get (self_deviceId st) (devices st) = None ->
  JsMap.get (self_deviceId st) (devices (fst (run st inputs))) = None.
Proof.
  induction inputs as [|i rest IH]; intros st Hnone; simpl; [exact Hnone|].
  pose proof (self_absent_step st i Hnone) as H1.
  pose proof (DiscoveryProps.step_self st i) as Hself.
  destruct (step st i) as [st1 ev1]. simpl in *.
  rewrite <- Hself in H1. specialize (IH st1 H1).
  destruct (run st1 rest) as [st2 ev2]. simpl in *. now rewrite <- Hself.
Qed.

(** X2.  The service never registers itself: whatever packets arrive, its
    own identifier is not a key of the registry, and its own broadcast, when
    it comes back from the network, changes nothing and emits nothing. *)
Theorem own_identifier_never_registered (self : string) (window : bool)
    (inputs : list Input) :
  JsMap.get self (devices (fst (run (init self window) inputs))) = None
  /\ (forall st deviceName platform sent address now,
        onMessage st (Some (broadcastMessage st deviceName platform sent)) address now
        = (st, [])).
Proof.
  split.
  - apply (self_absent_run inputs (init self window)). reflexivity.
  - intros st deviceName platform sent address now. unfold onMessage. simpl.
    now rewrite String.eqb_refl.
Qed.

(** X3.  After a cleanup tick every device still flagged online was heard
    from within the last 10000 ms. *)
Theorem listed_after_sweep_is_fresh (st : State) (now : Z) (k : string) (d : Device) :
  JsMap.get k (devices (fst (cleanup st now))) = Some d ->
  online d = true ->
  now - lastSeenTime st k <= DEVICE_TIMEOUT.
Proof.
  rewrite DiscoveryProps.cleanup_get. intros Hget Hon.
  destruct (JsMap.get k (devices st)) as [d0|]; [|discriminate]. simpl in Hget.
  destruct (timedOut st now k) eqn:E.
  - injection Hget as <-. discriminate Hon.
  - apply not_true_iff_false in E. rewrite DiscoveryProps.timedOut_spec in E. lia.
Qed.

Lemma listed_after_sweep_is_fresh_witness :
  8000 - lastSeenTime onePeer "peer-1" <= DEVICE_TIMEOUT.
Proof.
  apply (listed_after_sweep_is_fresh onePeer 8000 "peer-1"
           (peerDevice "192.168.1.7" true)).
  - vm_compute. reflexivity.
  - reflexivity.
Defined.

(** X4.  The online flag of a registered device goes from false to true
    only when a packet announcing that very identifier is accepted; a
    cleanup tick or a packet about another device never brings it back. *)
Theorem back_online_only_by_own_announcement
    (st : State) (i : Input) (k : string) (d d' : Device) :
  JsMap.get k (devices st) = Some d ->
  online d = false ->
  JsMap.get k (devices (fst (step st i))) = Some d' ->
  online d' = true ->
  exists data address now,
    i = Message (Some data) address now
    /\ deviceId data = k
    /\ msg_type data = "announce"
    /\ k <> self_deviceId st.
Proof.
  intros Hget Hoff Hget' Hon.
  destruct i as [[data|] address now | now]; simpl in Hget'.
  - destruct (String.eqb_spec (msg_type data) "announce") as [Ht|Ht]; simpl in Hget';
      [|congruence].
    destruct (String.eqb_spec (deviceId data) (self_deviceId st)) as [Es|Hs];
      simpl in Hget'; [congruence|].
    destruct (String.eqb_spec (deviceId data) k) as [Ek|Hk].
    + exists data, address, now. repeat split; congruence.
    + rewrite JsMapFacts.get_set_ne in Hget' by exact Hk. congruence.
  - congruence.
  - change (JsMap.get k (devices (fst (cleanup st now))) = Some d') in Hget'.
    rewrite DiscoveryProps.cleanup_get, Hget in Hget'. simpl in Hget'.
    destruct (timedOut st now k); injection Hget' as <-; simpl in Hon; congruence.
Qed.

Lemma back_online_only_by_own_announcement_witness :
  exists data address now,
    Message (Some (peerAnnounce 5201 20000)) "192.168.1.8" 20000
      = Message (Some data) address now
    /\ deviceId data = "peer-1"
    /\ msg_type data = "announce"
    /\ "peer-1" <> self_deviceId (fst (cleanup onePeer 11000)).
Proof.
  apply (back_online_only_by_own_announcement (fst (cleanup onePeer 11000))
           (Message (Some (peerAnnounce 5201 20000)) "192.168.1.8" 20000)
           "peer-1" (peerDevice "192.168.1.7" false) (peerDevice "192.168.1.8" true)).
  - vm_compute. reflexivity.
  - reflexivity.
  - vm_compute. reflexivity.
  - reflexivity.
Defined.

Lemma allSeen_step st i : allSeen st -> allSeen (fst (step st i)).
Proof.
  intros Hall. destruct i as [[data|] address now | now].
  - simpl. destruct (_ && _); [|exact Hall].
    intros k Hin. simpl in *. apply JsMapFacts.keys_set_in in Hin.
    destruct (decide (deviceId data = k)) as [->|Hne].
    + exists now. apply lookup_insert_eq.
    + rewrite lookup_insert_ne by exact Hne. apply Hall.
      destruct Hin as [E|Hin]; [congruence | exact Hin].
  - exact Hall.
  - change (step st (Tick now)) with (cleanup st now).
    intros k Hin. rewrite (DiscoveryProps.cleanup_keys st now) in Hin.
    now apply Hall.
Qed.

Lemma allSeen_run inputs : forall st, allSeen st -> allSeen (fst (run st inputs)).
Proof.
  induction inputs as [|i rest IH]; intros st Hall; simpl; [exact Hall|].
  pose proof (allSeen_step st i Hall) as H1.
  destruct (step st i) as [st1 ev1]. specialize (IH st1 H1).
  now destruct (run st1 rest) as [st2 ev2].
Qed.

(** X5.  Every device of the registry has a recorded last-seen time, after
    any sequence of packets and ticks, so the cleanup tick never has to fall
    back on time 0 for a missing entry. *)
Theorem every_device_has_last_seen (self : string) (window : bool)
    (inputs : list Input) (k : string) :
  In k (JsMap.keys (devices (fst (run (init self window) inputs)))) ->
  exists t, lastSeen (fst (run (init self window) inputs)) !! k = Some t.
Proof.
  apply (allSeen_run inputs (init self window)). intros k' [].
Qed.

Lemma every_device_has_last_seen_witness :
  exists t,
    lastSeen (fst (run (init "self-0" false)
                     [Message (Some (peerAnnounce 5201 0)) "192.168.1.7" 40; Tick 50000]))
      !! "peer-1" = Some t.
Proof.
  apply (every_device_has_last_seen "self-0" false
           [Message (Some (peerAnnounce 5201 0)) "192.168.1.7" 40; Tick 50000] "peer-1").
  vm_compute. now left.
Defined.

Lemma get_In_values {V} k (v : V) m : JsMap.get k m = Some v -> In v (JsMap.values m).
Proof.
  induction m as [|[k' v'] m IH]; simpl; [discriminate|].
  destruct (String.eqb k k'); [intros [= ->]; now left | intros H; right; now apply IH].
Qed.

Lemma get_listed st k d :
  JsMap.get k (devices st) = Some d -> online d = true -> In d (getDevices st).
Proof.
  intros Hget Hon. unfold getDevices. apply list_elem_of_In.
  apply list_elem_of_filter. split; [exact Hon|].
  apply list_elem_of_In. now apply (get_In_values k).
Qed.

Lemma ticks_within_window k d t ticks : forall st,
  JsMap.get k (devices st) = Some d ->
  lastSeen st !! k = Some t ->
  Forall (fun now => now - t <= DEVICE_TIMEOUT) ticks ->
  JsMap.get k (devices (fst (run st (map Tick ticks)))) = Some d.
Proof.
  induction ticks as [|now ticks IH]; intros st Hget Hseen Hall; [exact Hget|].
  cbn [map run]. change (step st (Tick now)) with (cleanup st now).
  inversion Hall as [|? ? Hnow Hrest]; subst.
  pose proof (DiscoveryProps.fresh_device_untouched st k d t now Hget Hseen Hnow) as H1.
  assert (lastSeen (fst (cleanup st now)) !! k = Some t) as H2 by exact Hseen.
  destruct (cleanup st now) as [st1 ev1]. simpl in H1, H2.
  specialize (IH st1 H1 H2 Hrest).
  now destruct (run st1 (map Tick ticks)) as [st2 ev2].
Qed.

(** X6.  Once an announcement of a foreign device has been accepted at time
    [t], the device is listed by [getDevices] after any number of cleanup
    ticks that all fall within 10000 ms of [t]. *)
Theorem listed_through_sweeps_within_window
    (st : State) (data : AnnounceMessage) (address : string) (t : Z)
    (ticks : list Z) :
  msg_type data = "announce" ->
  deviceId data <> self_deviceId st ->
  Forall (fun now => now - t <= DEVICE_TIMEOUT) ticks ->
  In (deviceOf data address)
     (getDevices (fst (run st (Message (Some data) address t :: map Tick ticks)))).
Proof.
  intros Htype Hself Hall.
  change (run st (Message (Some data) address t :: map Tick ticks))
    with (let '(st1, ev1) := onMessage st (Some data) address t in
          let '(st2, ev2) := run st1 (map Tick ticks) in (st2, ev1 ++ ev2)).
  unfold onMessage. rewrite Htype.
  destruct (String.eqb_spec (deviceId data) (self_deviceId st)) as [E|_];
    [contradiction|].
  simpl andb. cbv iota.
  pose proof (ticks_within_window (deviceId data) (deviceOf data address) t ticks
                (fst (handleAnnounce st data address t))) as Hkeep.
  destruct (handleAnnounce st data address t) as [st1 ev1] eqn:Hha.
  assert (st1 = fst (handleAnnounce st data address t)) as Hst1 by now rewrite Hha.
  simpl in Hkeep.
  assert (JsMap.get (deviceId data) (devices st1) = Some (deviceOf data address)) as Hget.
  { rewrite Hst1. simpl. apply JsMapFacts.get_set_eq. }
  assert (lastSeen st1 !! deviceId data = Some t) as Hseen.
  { rewrite Hst1. simpl. apply lookup_insert_eq. }
  specialize (Hkeep Hget Hseen Hall).
  destruct (run st1 (map Tick ticks)) as [st2 ev2]. simpl in *.
  now apply (get_listed st2 (deviceId data)).
Qed.

Lemma listed_through_sweeps_within_window_witness :
  In (deviceOf (peerAnnounce 5201 0) "192.168.1.7")
     (getDevices (fst (run (init "self-0" false)
                         (Message (Some (peerAnnounce 5201 0)) "192.168.1.7" 100
                          :: map Tick [1100; 2100; 10100])))).
Proof.
  apply (listed_through_sweeps_within_window (init "self-0" false)
           (peerAnnounce 5201 0) "192.168.1.7" 100 [1100; 2100; 10100]).
  - reflexivity.
  - discriminate.
  - repeat constructor; unfold DEVICE_TIMEOUT; lia.
Defined.

(** *** The host address *)

Lemma firstExternal_head iface :
  firstExternal iface
  = head (map address
            (List.filter
               (fun info => String.eqb (family info) "IPv4" && negb (internal info))
               iface)).
Proof.
  induction iface as [|info rest IH]; simpl; [reflexivity|].
  now destruct (String.eqb (family info) "IPv4" && negb (internal info)).
Qed.

Lemma scanInterfaces_head interfaces :
  scanInterfaces interfaces = head (externalAddresses interfaces).
Proof.
  induction interfaces as [|[n [iface|]] rest IH]; simpl; [reflexivity| |exact IH].
  rewrite firstExternal_head, IH. unfold externalAddresses. simpl.
  now destruct (map address _).
Qed.

(** X7.  [getLocalIP] returns the first address, in iteration order, that
    belongs to an IPv4 entry not flagged internal, and the loopback address
    127.0.0.1 when there is none; interfaces without a value are skipped. *)
Theorem getLocalIP_first_external
    (interfaces : list (string * option (list NetworkInterfaceInfo))) :
  getLocalIP interfaces
  = match externalAddresses interfaces with
    | a :: _ => a
    | [] => "127.0.0.1"
    end.
Proof.
  unfold getLocalIP. rewrite scanInterfaces_head.
  now destruct (externalAddresses interfaces).
Qed.

Example getLocalIP_laptop : getLocalIP laptopInterfaces = "192.168.1.5".
Proof. reflexivity. Qed.

(** *** The persisted identifier *)

Lemma mkdir_fold_None (l : list string) :
  fold_left
    (fun (acc : option (gmap string Fs.Node)) a =>
       match acc with
       | None => None
       | Some fs' =>
           match fs' !! a with
           | Some (Fs.File _) => None
           | _ => Some (<[a := Fs.Directory]> fs')
           end
       end) l None = None.
Proof. induction l as [|a l IH]; [reflexivity | exact IH]. Qed.

Lemma mkdirSync_keeps_files fs p fs1 q content :
  Fs.mkdirSync fs p = Some fs1 ->
  fs1 !! q = Some (Fs.File content) ->
  fs !! q = Some (Fs.File content).
Proof.
  unfold Fs.mkdirSync. generalize (Path.ancestors p) as l. intros l. revert fs.
  induction l as [|a l IH]; intros fs Hfold Hq; simpl in Hfold.
  - now injection Hfold as <-.
  - destruct (fs !! a) as [[c|]|] eqn:Ha.
    + now rewrite mkdir_fold_None in Hfold.
    + specialize (IH _ Hfold Hq).
      destruct (decide (a = q)) as [->|Hne];
        [now rewrite lookup_insert_eq in IH | now rewrite lookup_insert_ne in IH].
    + specialize (IH _ Hfold Hq).
      destruct (decide (a = q)) as [->|Hne];
        [now rewrite lookup_insert_eq in IH | now rewrite lookup_insert_ne in IH].
Qed.

Lemma stored_file_is_read fs p content :
  Fs.lookup fs p = Some (Fs.File content) ->
  (if Fs.existsSync fs p then FsText.readFileSync fs p else None)
  = Some (string_of_list_byte content).
Proof.
  intros H. unfold Fs.existsSync, FsText.readFileSync. now rewrite H.
Qed.

Lemma lookup_file_raw fs p content :
  Fs.lookup fs p = Some (Fs.File content) -> fs !! p = Some (Fs.File content).
Proof. unfold Fs.lookup. now destruct (Fs.isAnchor p). Qed.

(** X8.  The identifier is stable across restarts once it is on disk: if
    after one call of [generateDeviceId] the file [device-id] exists in the
    user-data directory, every later call returns the same identifier,
    ignores the fresh random value and leaves the file system as it is. *)
Theorem device_id_survives_restart
    (userData : string) (fs : gmap string Fs.Node) (uuid1 uuid2 : string) :
  (exists content,
      Fs.lookup (snd (generateDeviceId userData fs uuid1))
        (Path.join userData "device-id") = Some (Fs.File content)) ->
  generateDeviceId userData (snd (generateDeviceId userData fs uuid1)) uuid2
  = generateDeviceId userData fs uuid1.
Proof.
  intros [content Hfile]. unfold generateDeviceId in *.
  set (p := Path.join userData "device-id") in *.
  destruct (if Fs.existsSync fs p then FsText.readFileSync fs p else None)
    as [stored|] eqn:Hfirst.
  - simpl. now rewrite Hfirst.
  - assert (forall c, Fs.lookup fs p <> Some (Fs.File c)) as Hnofile.
    { intros c Hc. now rewrite (stored_file_is_read fs p c Hc) in Hfirst. }
    destruct (Fs.mkdirSync fs (Path.dirname p)) as [fs1|] eqn:Hmk; simpl in *.
    + destruct (FsText.writeFileSync fs1 p uuid1) as [fs2|] eqn:Hwr; simpl in *.
      * assert (fs2 = <[p := Fs.File (list_byte_of_string uuid1)]> fs1
                /\ Fs.isAnchor p = false) as [-> Hanchor].
        { unfold FsText.writeFileSync, Fs.lookup in Hwr.
          destruct (Path.endsWithSlash p); [discriminate|].
          destruct (Fs.isAnchor p); [discriminate|].
          destruct (fs1 !! p) as [[c|]|];
            destruct (if Fs.isAnchor (Path.dirname p) then Some Fs.Directory
                      else fs1 !! Path.dirname p) as [[c'|]|];
            try discriminate; now injection Hwr as <-. }
        rewrite (stored_file_is_read _ p (list_byte_of_string uuid1)).
        -- now rewrite string_of_list_byte_of_string.
        -- unfold Fs.lookup. rewrite Hanchor. apply lookup_insert_eq.
      * exfalso. apply (Hnofile content).
        pose proof (lookup_file_raw _ _ _ Hfile) as Hraw.
        unfold Fs.lookup in *. destruct (Fs.isAnchor p); [discriminate|].
        now apply (mkdirSync_keeps_files fs (Path.dirname p) fs1).
    + exfalso. now apply (Hnofile content).
Qed.

Lemma device_id_survives_restart_witness :
  generateDeviceId "/home/u/.config/landrop"
    (snd (generateDeviceId "/home/u/.config/landrop" emptyHome "uuid-1")) "uuid-2"
  = generateDeviceId "/home/u/.config/landrop" emptyHome "uuid-1".
Proof.
  apply (device_id_survives_restart "/home/u/.config/landrop" emptyHome
           "uuid-1" "uuid-2").
  exists (list_byte_of_string "uuid-1"). vm_compute. reflexivity.
Defined.

(** On that first start the fresh value is the identifier and it is
    written under the user-data directory, which is created on the way. *)
Example first_start_persists_identifier :
  fst (generateDeviceId "/home/u/.config/landrop" emptyHome "uuid-1") = "uuid-1"
  /\ FsText.readFileSync
       (snd (generateDeviceId "/home/u/.config/landrop" emptyHome "uuid-1"))
       "/home/u/.config/landrop/device-id" = Some "uuid-1".
Proof. split; vm_compute; reflexivity. Qed.

(** *** Entries are kept *)

Lemma has_step k st i :
  JsMap.has k (devices st) = true -> JsMap.has k (devices (fst (step st i))) = true.
Proof.
  intros Hhas. destruct i as [[data|] address now | now].
  - simpl. destruct (_ && _); [|exact Hhas]. simpl. rewrite set_has.
    now destruct (String.eqb (deviceId data) k).
  - exact Hhas.
  - change (step st (Tick now)) with (cleanup st now). now rewrite cleanup_has.
Qed.

(** X21.  The registry never forgets a device: an identifier that is a key
    of the map stays one after any further packets and cleanup ticks, timed
    out or not; only the online flag of its entry changes. *)
Theorem registered_device_is_never_removed
    (st : State) (inputs : list Input) (k : string) :
  JsMap.has k (devices st) = true ->
  JsMap.has k (devices (fst (run st inputs))) = true.
Proof.
  revert st. induction inputs as [|i rest IH]; intros st Hhas; [exact Hhas|].
  cbn [run]. pose proof (has_step k st i Hhas) as H1.
  destruct (step st i) as [st1 ev1]. specialize (IH st1 H1).
  now destruct (run st1 rest) as [st2 ev2].
Qed.

Lemma registered_device_is_never_removed_witness :
  JsMap.has "peer-1"
    (devices (fst (run onePeer [Tick 11000; Tick 3600000; Tick 86400000]))) = true.
Proof.
  apply (registered_device_is_never_removed onePeer
           [Tick 11000; Tick 3600000; Tick 86400000] "peer-1").
  reflexivity.
Defined.

End DiscoveryMore.

(** ** More on the transfer service *)

Module TransferMore.

Import Transfer TransferScenario TransferMoreScenario.
Local Open Scope Z_scope.

(** *** Length prefixes *)

Lemma land_255_range z : 0 <= Z.land z 255 < 256.
Proof.
  change 255 with (Z.ones 8). rewrite Z.land_ones by lia.
  apply Z.mod_pos_bound. lia.
Qed.

Lemma byteZ_byteOfZ z : Buffer.byteZ (Buffer.byteOfZ z) = Z.land z 255.
Proof.
  unfold Buffer.byteZ, Buffer.byteOfZ. pose proof (land_255_range z) as Hr.
  destruct (Byte.of_N (Z.to_N (Z.land z 255))) as [b|] eqn:E.
  - apply Byte.to_of_N in E. rewrite E. apply Z2N.id. lia.
  - apply Byte.of_N_None_iff in E. lia.
Qed.

Lemma testbit_255 j : 0 <= j -> Z.testbit 255 j = (j <? 8).
Proof. intros Hj. change 255 with (Z.ones 8). apply Z.testbit_ones_nonneg; lia. Qed.

Lemma testbit_piece n k i :
  0 <= k -> 0 <= i ->
  Z.testbit (Z.shiftl (Z.land (Z.shiftr n k) 255) k) i
  = Z.testbit n i && (k <=? i) && (i <? k + 8).
Proof.
  intros Hk Hi. rewrite Z.shiftl_spec by lia.
  destruct (Z.leb_spec k i) as [Hle|Hlt].
  - rewrite Z.land_spec, Z.shiftr_spec, testbit_255 by lia.
    replace (i - k + k) with i by lia.
    destruct (Z.ltb_spec (i - k) 8), (Z.ltb_spec i (k + 8)); try lia;
      now rewrite ?andb_true_r, ?andb_false_r.
  - rewrite Z.testbit_neg_r by lia. now rewrite andb_false_r.
Qed.

Lemma testbit_high n i : 0 <= n < 2 ^ 32 -> 32 <= i -> Z.testbit n i = false.
Proof.
  intros Hn Hi. destruct (Z.eq_dec n 0) as [->|Hne]; [apply Z.bits_0|].
  apply Z.bits_above_log2; [lia|].
  assert (Z.log2 n < 32) by (apply Z.log2_lt_pow2; lia). lia.
Qed.

Lemma readUInt32BE_writeUInt32BE n rest :
  0 <= n < 2 ^ 32 ->
  Buffer.readUInt32BE (Buffer.writeUInt32BE n ++ rest) = n.
Proof.
  intros Hn. unfold Buffer.writeUInt32BE. cbn [app Buffer.readUInt32BE].
  rewrite !byteZ_byteOfZ.
  apply Z.bits_inj'. intros i Hi.
  rewrite !Z.lor_spec.
  rewrite (testbit_piece n 24 i), (testbit_piece n 16 i), (testbit_piece n 8 i) by lia.
  assert (Z.testbit (Z.land n 255) i = Z.testbit n i && (0 <=? i) && (i <? 0 + 8)) as H0.
  { rewrite <- (testbit_piece n 0 i) by lia. now rewrite Z.shiftr_0_r, Z.shiftl_0_r. }
  rewrite H0.
  destruct (Z.ltb_spec i 32) as [H32|H32].
  - destruct (Z.testbit n i); simpl; [|reflexivity].
    destruct (Z.leb_spec 24 i), (Z.leb_spec 16 i), (Z.leb_spec 8 i), (Z.leb_spec 0 i),
      (Z.ltb_spec i (24 + 8)), (Z.ltb_spec i (16 + 8)), (Z.ltb_spec i (8 + 8)),
      (Z.ltb_spec i (0 + 8)); simpl; try reflexivity; lia.
  - rewrite (testbit_high n i Hn H32). reflexivity.
Qed.

Lemma lengthZ_app (a b : list byte) :
  Buffer.lengthZ (a ++ b) = Buffer.lengthZ a + Buffer.lengthZ b.
Proof. unfold Buffer.lengthZ. rewrite length_app. lia. Qed.

Lemma lengthZ_nonneg (a : list byte) : 0 <= Buffer.lengthZ a.
Proof. unfold Buffer.lengthZ. lia. Qed.

(** *** What the initiator streams *)

Lemma setTransferred_same t : setTransferred (transferredSize t + 0) t = t.
Proof. destruct t. unfold setTransferred. simpl. f_equal. lia. Qed.

Lemma advanced_refl w : advanced 0 w w.
Proof.
  split; [reflexivity|]. destruct (currentTask w) as [t|]; [|reflexivity].
  simpl. now rewrite setTransferred_same.
Qed.

Lemma advanced_trans n m w1 w2 w3 :
  advanced n w1 w2 -> advanced m w2 w3 -> advanced (n + m) w1 w3.
Proof.
  intros [Hd1 Ht1] [Hd2 Ht2]. split; [congruence|].
  rewrite Ht2, Ht1. destruct (currentTask w1) as [t|]; [|reflexivity].
  simpl. unfold setTransferred. simpl. do 2 f_equal. lia.
Qed.

Lemma slice_chunk content b :
  0 <= b <= Buffer.lengthZ content ->
  let chunk := Buffer.slice b (b + CHUNK_SIZE) content in
  chunk ++ drop (Z.to_nat (b + Buffer.lengthZ chunk)) content = drop (Z.to_nat b) content
  /\ Buffer.lengthZ chunk = Z.min CHUNK_SIZE (Buffer.lengthZ content - b).
Proof.
  intros Hb chunk. unfold chunk, Buffer.slice, Buffer.lengthZ in *.
  set (n := Z.to_nat (Z.min (b + CHUNK_SIZE) (Z.of_nat (length content)) - b)).
  assert (length (take n (drop (Z.to_nat b) content)) = n) as Hlen.
  { rewrite length_take, length_drop. unfold n, CHUNK_SIZE in *. lia. }
  split.
  - rewrite Hlen. replace (Z.to_nat (b + Z.of_nat n)) with (Z.to_nat b + n)%nat by lia.
    rewrite <- drop_drop. apply take_drop.
  - rewrite Hlen. unfold n, CHUNK_SIZE. lia.
Qed.

Lemma readAndSend_streams fuel : forall content b w s,
  0 <= b <= Buffer.lengthZ content ->
  Z.of_nat fuel > Buffer.lengthZ content - b ->
  exists frames,
    socketWrites (snd (readAndSend fuel content b w s))
      = socketWrites s ++ map chunkFrame frames
    /\ concat frames = drop (Z.to_nat b) content
    /\ Forall goodChunk frames
    /\ sameSocket s (snd (readAndSend fuel content b w s))
    /\ advanced (Buffer.lengthZ content - b) w (fst (readAndSend fuel content b w s)).
Proof.
  induction fuel as [|fuel IH]; intros content b w s Hb Hfuel; [lia|].
  cbn [readAndSend].
  destruct (slice_chunk content b Hb) as [Hcat Hread].
  set (chunk := Buffer.slice b (b + CHUNK_SIZE) content) in *.
  destruct (Z.eqb_spec (Buffer.lengthZ chunk) 0) as [Hz|Hnz].
  - exists []. simpl.
    assert (Buffer.lengthZ content - b = 0) as Hend by (unfold CHUNK_SIZE in *; lia).
    assert (drop (Z.to_nat b) content = []) as Hdrop.
    { apply drop_ge. unfold Buffer.lengthZ in *. lia. }
    rewrite Hend, Hdrop, app_nil_r.
    repeat split; try reflexivity; [constructor | apply advanced_refl].
  - pose proof (lengthZ_nonneg chunk) as Hpos.
    set (w1 := match currentTask w with
               | Some t =>
                   if onProgressCallback w
                   then notify (OnProgress (id (setTransferred (transferredSize t + Buffer.lengthZ chunk) t))
                                  (transferredSize (setTransferred (transferredSize t + Buffer.lengthZ chunk) t))
                                  (totalSize (setTransferred (transferredSize t + Buffer.lengthZ chunk) t)))
                          (setTask (Some (setTransferred (transferredSize t + Buffer.lengthZ chunk) t)) w)
                   else setTask (Some (setTransferred (transferredSize t + Buffer.lengthZ chunk) t)) w
               | None => w
               end).
    assert (advanced (Buffer.lengthZ chunk) w w1) as Hadv.
    { unfold w1. destruct (currentTask w) as [t|] eqn:Ht.
      - destruct (onProgressCallback w); split; simpl; rewrite ?Ht; reflexivity.
      - split; [reflexivity|]. now rewrite Ht. }
    destruct (IH content (b + Buffer.lengthZ chunk) w1
                (senderWrite (chunkFrame chunk) s)) as [frames [Hw [Hc [Hg [Hs Ha]]]]].
    { unfold CHUNK_SIZE in *. lia. }
    { unfold CHUNK_SIZE in *. lia. }
    exists (chunk :: frames).
    fold w1. rewrite Hw. simpl. rewrite <- app_assoc. simpl.
    repeat split.
    + now rewrite Hc.
    + constructor; [|exact Hg]. unfold goodChunk, CHUNK_SIZE in *. lia.
    + apply Hs.
    + apply Hs.
    + apply Hs.
    + apply (advanced_trans _ _ _ _ _ Hadv) in Ha.
      replace (Buffer.lengthZ content - b)
        with (Buffer.lengthZ chunk
              + (Buffer.lengthZ content - (b + Buffer.lengthZ chunk))) by lia.
      apply Ha.
    + apply (advanced_trans _ _ _ _ _ Hadv) in Ha.
      replace (Buffer.lengthZ content - b)
        with (Buffer.lengthZ chunk
              + (Buffer.lengthZ content - (b + Buffer.lengthZ chunk))) by lia.
      apply Ha.
Qed.

Lemma readable_same_disk w w' f : disk w' = disk w -> readable w f -> readable w' f.
Proof. intros Hd [c Hc]. exists c. now rewrite Hd. Qed.

Lemma sourceOf_same_disk w w' f : disk w' = disk w -> sourceOf w' f = sourceOf w f.
Proof. intros Hd. unfold sourceOf. now rewrite Hd. Qed.

Lemma sendNextFile_streams fs : forall w s,
  Forall (readable w) fs ->
  exists frames,
    socketWrites (snd (sendNextFile w s fs))
      = socketWrites s ++ map chunkFrame frames ++ [WBytes endMarker]
    /\ concat frames = concat (map (sourceOf w) fs)
    /\ Forall goodChunk frames
    /\ socketEnded (snd (sendNextFile w s fs)) = socketEnded s
    /\ promise (snd (sendNextFile w s fs)) = promise s
    /\ closeListener (snd (sendNextFile w s fs)) = true
    /\ advanced (Buffer.lengthZ (concat (map (sourceOf w) fs))) w
         (fst (sendNextFile w s fs)).
Proof.
  induction fs as [|file rest IH]; intros w s Hall.
  - exists []. simpl. repeat split; try reflexivity; [constructor | apply advanced_refl].
  - inversion Hall as [|? ? [content Hfile] Hrest]; subst.
    cbn [sendNextFile]. rewrite Hfile.
    destruct (readAndSend_streams (S (length content)) content 0 w s)
      as [frames1 [Hw1 [Hc1 [Hg1 [[He1 [Hp1 Hl1]] Ha1]]]]].
    { pose proof (lengthZ_nonneg content). lia. }
    { unfold Buffer.lengthZ. lia. }
    destruct (readAndSend (S (length content)) content 0 w s) as [w1 s1].
    simpl in Hw1, He1, Hp1, Hl1, Ha1.
    destruct (IH w1 s1) as [frames2 [Hw2 [Hc2 [Hg2 [He2 [Hp2 [Hl2 Ha2]]]]]]].
    { eapply Forall_impl; [exact Hrest|].
      intros f Hf. apply (readable_same_disk w w1); [apply Ha1 | exact Hf]. }
    exists (frames1 ++ frames2).
    assert (map (sourceOf w1) rest = map (sourceOf w) rest) as Hsrc.
    { apply map_ext. intros f. apply sourceOf_same_disk, Ha1. }
    rewrite Hsrc in *.
    assert (sourceOf w file = content) as Hsf by (unfold sourceOf; now rewrite Hfile).
    cbn [map concat]. rewrite Hsf.
    repeat split.
    + rewrite Hw2, Hw1, map_app, <- !app_assoc. reflexivity.
    + rewrite concat_app, Hc1, Hc2. reflexivity.
    + apply Forall_app. now split.
    + congruence.
    + congruence.
    + exact Hl2.
    + apply (advanced_trans _ _ _ _ _ Ha1 Ha2).
    + rewrite lengthZ_app. replace (Buffer.lengthZ content - 0)
        with (Buffer.lengthZ content) in Ha1 by lia.
      apply (advanced_trans _ _ _ _ _ Ha1 Ha2).
Qed.

Lemma session_accept w device fs uuid now message :
  session w device fs uuid now [Connect; reply true message]
  = sendNextFile
      (updateTask (setStatus transferring) (fst (sendFiles w device fs uuid now)))
      (senderHeaderSent
         (senderWrite (WRequest (length fs) (sumSizes fs) fs)
            (snd (sendFiles w device fs uuid now))))
      fs.
Proof.
  unfold session. simpl.
  now destruct (sendNextFile _ _ fs).
Qed.

(** X9.  When every entry of the list names a regular file on the sender's
    disk and the peer accepts, the initiator writes the request, then chunk
    frames, then the end marker, and nothing else; the payloads of the
    frames, put end to end, are the bytes of the files in list order; every
    frame carries between 1 and 65536 bytes.  An empty list gives the
    request and the end marker alone. *)
Theorem accepted_stream_carries_the_files
    (w : World) (device : Discovery.Device) (fs : list FileInfo)
    (uuid : string) (now : Z) (message : string) :
  Forall (readable w) fs ->
  exists frames,
    socketWrites (snd (session w device fs uuid now [Connect; reply true message]))
      = WRequest (length fs) (sumSizes fs) fs
        :: map chunkFrame frames ++ [WBytes endMarker]
    /\ concat frames = concat (map (sourceOf w) fs)
    /\ Forall goodChunk frames
    /\ socketEnded (snd (session w device fs uuid now [Connect; reply true message]))
       = false.
Proof.
  intros Hall. rewrite session_accept.
  set (w1 := updateTask (setStatus transferring) _).
  set (s1 := senderHeaderSent _).
  destruct (sendNextFile_streams fs w1 s1) as [frames [Hw [Hc [Hg [He [_ [_ _]]]]]]].
  { eapply Forall_impl; [exact Hall|]. intros f Hf.
    apply (readable_same_disk w w1); [reflexivity | exact Hf]. }
  exists frames. destruct (sendNextFile w1 s1 fs) as [w2 s2]. simpl in *.
  repeat split.
  - exact Hw.
  - rewrite Hc. reflexivity.
  - exact Hg.
  - exact He.
Qed.

Lemma accepted_stream_carries_the_files_witness :
  exists frames,
    socketWrites
      (snd (session senderWorld peer twoFiles "task-1" 0 [Connect; reply true "ok"]))
      = WRequest (length twoFiles) (sumSizes twoFiles) twoFiles
        :: map chunkFrame frames ++ [WBytes endMarker]
    /\ concat frames = concat (map (sourceOf senderWorld) twoFiles)
    /\ Forall goodChunk frames
    /\ socketEnded
         (snd (session senderWorld peer twoFiles "task-1" 0 [Connect; reply true "ok"]))
       = false.
Proof.
  apply (accepted_stream_carries_the_files senderWorld peer twoFiles "task-1" 0 "ok").
  repeat constructor; eexists; vm_compute; reflexivity.
Defined.

(** X10.  After such a stream the task is [transferring] and its
    [transferredSize] is the number of bytes read from the files, whatever
    sizes the entries declare; [totalSize] stays the declared sum. *)
Theorem transferred_counts_bytes_read
    (w : World) (device : Discovery.Device) (fs : list FileInfo)
    (uuid : string) (now : Z) (message : string) :
  Forall (readable w) fs ->
  exists t,
    currentTask (fst (session w device fs uuid now [Connect; reply true message]))
      = Some t
    /\ transferredSize t = Buffer.lengthZ (concat (map (sourceOf w) fs))
    /\ totalSize t = sumSizes fs
    /\ status t = transferring.
Proof.
  intros Hall. rewrite session_accept.
  set (w1 := updateTask (setStatus transferring) _).
  set (s1 := senderHeaderSent _).
  destruct (sendNextFile_streams fs w1 s1) as [frames [_ [_ [_ [_ [_ [_ [_ Ht]]]]]]]].
  { eapply Forall_impl; [exact Hall|]. intros f Hf.
    apply (readable_same_disk w w1); [reflexivity | exact Hf]. }
  destruct (sendNextFile w1 s1 fs) as [w2 s2]. simpl in Ht |- *.
  rewrite Ht. unfold w1. simpl. eexists. split; [reflexivity|]. simpl.
  repeat split.
Qed.

Lemma transferred_counts_bytes_read_witness :
  exists t,
    currentTask
      (fst (session senderWorld peer [entry "a.bin" 1000; entry "b.bin" 0] "task-1" 0
              [Connect; reply true "ok"]))
      = Some t
    /\ transferredSize t
       = Buffer.lengthZ
           (concat (map (sourceOf senderWorld) [entry "a.bin" 1000; entry "b.bin" 0]))
    /\ totalSize t = sumSizes [entry "a.bin" 1000; entry "b.bin" 0]
    /\ status t = transferring.
Proof.
  apply (transferred_counts_bytes_read senderWorld peer
           [entry "a.bin" 1000; entry "b.bin" 0] "task-1" 0 "ok").
  repeat constructor; eexists; vm_compute; reflexivity.
Defined.

Lemma sendNextFile_stops pre : forall w s f post,
  Forall (readable w) pre ->
  Fs.lookup (disk w) (path f) = None ->
  exists frames,
    socketWrites (snd (sendNextFile w s (pre ++ f :: post)))
      = socketWrites s ++ map chunkFrame frames
    /\ concat frames = concat (map (sourceOf w) pre)
    /\ Forall goodChunk frames
    /\ socketEnded (snd (sendNextFile w s (pre ++ f :: post))) = true
    /\ closeListener (snd (sendNextFile w s (pre ++ f :: post))) = closeListener s.
Proof.
  induction pre as [|file rest IH]; intros w s f post Hall Hmissing.
  - exists []. cbn [app sendNextFile]. rewrite Hmissing. simpl.
    rewrite app_nil_r. repeat split. constructor.
  - inversion Hall as [|? ? [content Hfile] Hrest]; subst.
    cbn [app sendNextFile]. rewrite Hfile.
    destruct (readAndSend_streams (S (length content)) content 0 w s)
      as [frames1 [Hw1 [Hc1 [Hg1 [[He1 [Hp1 Hl1]] Ha1]]]]].
    { pose proof (lengthZ_nonneg content). lia. }
    { unfold Buffer.lengthZ. lia. }
    destruct (readAndSend (S (length content)) content 0 w s) as [w1 s1].
    simpl in Hw1, He1, Hp1, Hl1, Ha1.
    destruct (IH w1 s1 f post) as [frames2 [Hw2 [Hc2 [Hg2 [He2 Hl2]]]]].
    { eapply Forall_impl; [exact Hrest|].
      intros g Hg. apply (readable_same_disk w w1); [apply Ha1 | exact Hg]. }
    { destruct Ha1 as [Hd _]. now rewrite Hd. }
    exists (frames1 ++ frames2).
    assert (map (sourceOf w1) rest = map (sourceOf w) rest) as Hsrc.
    { apply map_ext. intros g. apply sourceOf_same_disk, Ha1. }
    rewrite Hsrc in *.
    assert (sourceOf w file = content) as Hsf by (unfold sourceOf; now rewrite Hfile).
    cbn [map concat]. rewrite Hsf.
    repeat split.
    + rewrite Hw2, Hw1, map_app, <- !app_assoc. reflexivity.
    + rewrite concat_app, Hc1, Hc2. reflexivity.
    + apply Forall_app. now split.
    + exact He2.
    + congruence.
Qed.

Lemma chunkFrame_not_marker c : goodChunk c -> chunkFrame c <> WBytes endMarker.
Proof.
  intros [Hlo _] Heq. unfold chunkFrame in Heq.
  assert (Buffer.writeUInt32BE (Buffer.lengthZ c) ++ c = endMarker) as H
    by congruence.
  apply (f_equal (@length byte)) in H. rewrite length_app in H.
  unfold Buffer.lengthZ in Hlo. simpl in H. lia.
Qed.

(** X11.  If the source of an entry is missing on the sender's disk, the
    stream stops there: the files before it have been sent in full, the end
    marker is never written, the socket is ended and no completion
    listener is installed, so the task is never marked completed. *)
Theorem missing_source_ends_the_stream
    (w : World) (device : Discovery.Device) (pre post : list FileInfo)
    (f : FileInfo) (uuid : string) (now : Z) (message : string) :
  Forall (readable w) pre ->
  Fs.lookup (disk w) (path f) = None ->
  let r := session w device (pre ++ f :: post) uuid now [Connect; reply true message] in
  (exists frames,
      socketWrites (snd r)
        = WRequest (length (pre ++ f :: post)) (sumSizes (pre ++ f :: post))
            (pre ++ f :: post)
          :: map chunkFrame frames
      /\ concat frames = concat (map (sourceOf w) pre))
  /\ ~ In (WBytes endMarker) (socketWrites (snd r))
  /\ socketEnded (snd r) = true
  /\ closeListener (snd r) = false.
Proof.
  intros Hall Hmissing r. unfold r. rewrite session_accept.
  set (w1 := updateTask (setStatus transferring) _).
  set (s1 := senderHeaderSent _).
  destruct (sendNextFile_stops pre w1 s1 f post) as [frames [Hw [Hc [Hg [He Hl]]]]].
  { eapply Forall_impl; [exact Hall|]. intros g Hg.
    apply (readable_same_disk w w1); [reflexivity | exact Hg]. }
  { exact Hmissing. }
  destruct (sendNextFile w1 s1 (pre ++ f :: post)) as [w2 s2]. simpl in *.
  split; [exists frames; split; [exact Hw | now rewrite Hc]|].
  split; [|split; [exact He | exact Hl]].
  rewrite Hw. intros [Hin|Hin]; [discriminate|].
  apply in_map_iff in Hin as [c [Hc' Hin]].
  apply (chunkFrame_not_marker c); [|exact Hc'].
  rewrite Forall_forall in Hg. apply Hg. now apply list_elem_of_In.
Qed.

Lemma missing_source_ends_the_stream_witness :
  let r := session senderWorld peer ([entry "a.bin" 2] ++ entry "gone.bin" 7 :: [entry "b.bin" 3])
             "task-1" 0 [Connect; reply true "ok"] in
  (exists frames,
      socketWrites (snd r)
        = WRequest (length ([entry "a.bin" 2] ++ entry "gone.bin" 7 :: [entry "b.bin" 3]))
            (sumSizes ([entry "a.bin" 2] ++ entry "gone.bin" 7 :: [entry "b.bin" 3]))
            ([entry "a.bin" 2] ++ entry "gone.bin" 7 :: [entry "b.bin" 3])
          :: map chunkFrame frames
      /\ concat frames = concat (map (sourceOf senderWorld) [entry "a.bin" 2]))
  /\ ~ In (WBytes endMarker) (socketWrites (snd r))
  /\ socketEnded (snd r) = true
  /\ closeListener (snd r) = false.
Proof.
  apply (missing_source_ends_the_stream senderWorld peer [entry "a.bin" 2]
           [entry "b.bin" 3] (entry "gone.bin" 7) "task-1" 0 "ok").
  - repeat constructor. eexists. vm_compute. reflexivity.
  - vm_compute. reflexivity.
Defined.

(** *** The promise of [sendFiles] *)

Lemma readAndSend_pending uuid fuel : forall content b w s,
  pendingSend uuid (w, s) -> pendingSend uuid (readAndSend fuel content b w s).
Proof.
  induction fuel as [|fuel IH]; intros content b w s H; [exact H|].
  cbn [readAndSend]. destruct (_ =? 0); [exact H|]. apply IH.
  destruct H as [[t [Ht [Hid Hst]]] Hp]. unfold pendingSend in *. simpl in *.
  rewrite Ht.
  destruct (onProgressCallback w); simpl;
    (split; [eexists; split; [reflexivity | split; assumption] | exact Hp]).
Qed.

Lemma sendNextFile_pending uuid fs : forall w s,
  pendingSend uuid (w, s) -> pendingSend uuid (sendNextFile w s fs).
Proof.
  induction fs as [|file rest IH]; intros w s H; cbn [sendNextFile].
  - exact H.
  - destruct (Fs.lookup (disk w) (path file)) as [[content|]|]; try exact H.
    pose proof (readAndSend_pending uuid (S (length content)) content 0 w s H) as H1.
    destruct (readAndSend (S (length content)) content 0 w s) as [w1 s1].
    now apply IH.
Qed.

Lemma settle_rejected_unresolved message p :
  (forall taskId, p <> Resolved taskId) ->
  forall taskId, settle (Rejected message) p <> Resolved taskId.
Proof. intros H taskId. destruct p; simpl; [discriminate | apply H | discriminate]. Qed.

Lemma sender_on_pending uuid w s e :
  isClose e = false -> pendingSend uuid (w, s) -> pendingSend uuid (sender_on w s e).
Proof.
  intros He H. destruct e as [|[response|]|message|]; try discriminate; simpl.
  - exact H.
  - destruct (String.eqb (r_type response) "transfer_response"); [|exact H].
    destruct (r_accepted response).
    + apply sendNextFile_pending.
      destruct H as [[t [Ht [Hid Hst]]] Hp]. unfold pendingSend, updateTask in *.
      simpl in *. rewrite Ht. simpl.
      split; [eexists; split; [reflexivity | split; [exact Hid | discriminate]] | exact Hp].
    + destruct H as [Ht Hp]. split; [exact Ht|].
      simpl. now apply settle_rejected_unresolved.
  - exact H.
  - destruct H as [[t [Ht [Hid Hst]]] Hp]. unfold pendingSend, updateTask in *.
    simpl in *. rewrite Ht. simpl.
    destruct (onErrorCallback w); simpl;
      (split; [eexists; split; [reflexivity | split; [exact Hid | discriminate]]
              | now apply settle_rejected_unresolved]).
Qed.

Lemma service_on_pending uuid w s e :
  isOwnClose e = false -> undisturbed e ->
  pendingSend uuid (w, s) -> pendingSend uuid (service_on w s e).
Proof.
  intros He Hu H. destruct e as [e'|g]; cbn [service_on].
  - apply sender_on_pending; [|exact H]. now destruct e'.
  - destruct H as [[t [Ht [Hid Hst]]] Hp]. simpl in Ht, Hp.
    destruct (Hu w t Ht Hst) as [t' [Ht' [Hid' Hst']]].
    split; [exists t'; simpl; repeat split; [exact Ht' | congruence | exact Hst'] | exact Hp].
Qed.

Lemma service_run_pending uuid events : forall w s,
  forallb (fun e => negb (isOwnClose e)) events = true ->
  Forall undisturbed events ->
  pendingSend uuid (w, s) -> pendingSend uuid (service_run w s events).
Proof.
  induction events as [|e rest IH]; intros w s Hall Hu H; [exact H|].
  simpl in Hall. apply andb_prop in Hall as [He Hrest].
  apply negb_true_iff in He. inversion Hu as [|? ? Hu1 Hu2]; subst.
  cbn [service_run].
  pose proof (service_on_pending uuid w s e He Hu1 H) as H1.
  destruct (service_on w s e) as [w1 s1]. now apply IH.
Qed.

Lemma service_run_app events1 events2 : forall w s,
  service_run w s (events1 ++ events2)
  = service_run (fst (service_run w s events1)) (snd (service_run w s events1)) events2.
Proof.
  induction events1 as [|e rest IH]; intros w s; [reflexivity|].
  cbn [app service_run]. destruct (service_on w s e) as [w1 s1]. apply IH.
Qed.

Lemma setDownloadDir_leavesUncompleted dir :
  leavesUncompleted (fun w => setDownloadDir w dir).
Proof.
  intros w t Ht Hst. exists t. unfold setDownloadDir.
  destruct (Fs.existsSync (disk w) dir); simpl; repeat split; assumption.
Qed.

Lemma inbound_chunk_leavesUncompleted c l data :
  (Buffer.lengthZ data =? 4) && (Buffer.readUInt32BE data =? 0) = false ->
  leavesUncompleted (fun w => fst (receiveData_listener w c l data)).
Proof.
  intros Hmark w t Ht Hst. unfold receiveData_listener. rewrite Hmark.
  destruct (Buffer.lengthZ data <? 4); [exists t; simpl; repeat split; assumption|].
  cbn [totalWrittenBytes setDisk].
  destruct (totalWrittenBytes w) as [total|];
    [|exists t; simpl; repeat split; assumption].
  unfold setTotal, setDisk. cbn [currentTask onProgressCallback]. rewrite Ht.
  destruct (onProgressCallback w); simpl.
  - eexists. split; [reflexivity | split; [reflexivity | discriminate]].
  - exists t. repeat split; assumption.
Qed.

(** The isolation asked of the other sessions is needed: an inbound
    transfer that finishes while the send is in flight marks the send's
    task completed, and the close then resolves the promise. *)
Example finished_inbound_transfer_resolves_the_send :
  promise (snd (serviceSession senderWorld peer twoFiles "task-1" 0
                  [OnSocket Connect; OnSocket (reply true "ok");
                   Elsewhere (fun w => fst (receiveNextFile w newConn [] 0));
                   OnSocket Close]))
  = Resolved "task-1".
Proof. vm_compute. reflexivity. Qed.

(** X12.  As long as no other session replaces or completes the service's
    current task while a send is in flight, the promise returned by
    [sendFiles] is never resolved by the close of its socket: the listener
    that would resolve it runs before the one that marks the task
    completed, so whatever happened before the close (connect, replies,
    errors, steps of other sessions that leave the task uncompleted) the
    promise is still unsettled or rejected after it.  When the end marker
    had been written, that same close does mark the task completed. *)
Theorem close_never_resolves_the_promise
    (w : World) (device : Discovery.Device) (fs : list FileInfo)
    (uuid : string) (now : Z) (events : list ServiceEvent) :
  forallb (fun e => negb (isOwnClose e)) events = true ->
  Forall undisturbed events ->
  (forall taskId,
      promise (snd (serviceSession w device fs uuid now (events ++ [OnSocket Close])))
      <> Resolved taskId)
  /\ (closeListener (snd (serviceSession w device fs uuid now events)) = true ->
      isCompleted (fst (serviceSession w device fs uuid now (events ++ [OnSocket Close])))
      = true).
Proof.
  intros Hall Hu. unfold serviceSession. rewrite service_run_app.
  assert (pendingSend uuid (service_run (fst (sendFiles w device fs uuid now))
                              (snd (sendFiles w device fs uuid now)) events)) as H.
  { apply service_run_pending; [exact Hall | exact Hu |].
    split; [|discriminate].
    eexists. split; [reflexivity | split; [reflexivity | discriminate]]. }
  destruct (service_run _ _ events) as [w2 s2]. destruct H as [[t [Ht [Hid Hst]]] Hp].
  simpl in Ht, Hp. cbn [fst snd service_run service_on sender_on].
  assert (isCompleted w2 = false) as Hc.
  { unfold isCompleted. rewrite Ht. now destruct (status t). }
  rewrite Hc. split.
  - intros taskId. destruct (closeListener s2); simpl; apply Hp.
  - intros Hl. rewrite Hl. unfold updateTask, isCompleted. rewrite Ht. simpl.
    now destruct (onCompleteCallback _).
Qed.

Lemma close_never_resolves_the_promise_witness :
  let inbound :=
    fun w => fst (receiveData_listener w newConn
                    (mkListener twoFiles 0 "/home/u/Downloads/LanDrop/a.bin" 0)
                    (chunk "aa")) in
  let events :=
    [OnSocket Connect; Elsewhere (fun w => setDownloadDir w "/home/u");
     OnSocket (reply true "ok"); Elsewhere inbound] in
  (forall taskId,
      promise (snd (serviceSession senderWorld peer twoFiles "task-1" 0
                      (events ++ [OnSocket Close]))) <> Resolved taskId)
  /\ (closeListener (snd (serviceSession senderWorld peer twoFiles "task-1" 0 events))
      = true ->
      isCompleted (fst (serviceSession senderWorld peer twoFiles "task-1" 0
                          (events ++ [OnSocket Close]))) = true).
Proof.
  intros inbound events.
  apply (close_never_resolves_the_promise senderWorld peer twoFiles "task-1" 0 events).
  - reflexivity.
  - unfold events.
    constructor; [exact I|].
    constructor; [apply setDownloadDir_leavesUncompleted|].
    constructor; [exact I|].
    constructor; [|constructor].
    apply inbound_chunk_leavesUncompleted. vm_compute. reflexivity.
Defined.

(** *** The header phase of the responder *)

Lemma indexOfNewline_app_None a b :
  Buffer.indexOfNewline (a ++ b) = None -> Buffer.indexOfNewline a = None.
Proof.
  induction a as [|x a IH]; simpl; [reflexivity|].
  destruct (Byte.eqb x x0a); [discriminate|].
  destruct (Buffer.indexOfNewline (a ++ b)); [discriminate|].
  intros _. now rewrite IH.
Qed.

Lemma setBuffer_own c : setBuffer (buffer c) c = c.
Proof. now destruct c. Qed.

Lemma socketDataAll_app JSON_parse accepted remoteAddress uuid now events1 events2 :
  forall w c,
  socketDataAll JSON_parse accepted remoteAddress uuid now w c (events1 ++ events2)
  = socketDataAll JSON_parse accepted remoteAddress uuid now
      (fst (socketDataAll JSON_parse accepted remoteAddress uuid now w c events1))
      (snd (socketDataAll JSON_parse accepted remoteAddress uuid now w c events1))
      events2.
Proof.
  induction events1 as [|e rest IH]; intros w c; [reflexivity|].
  cbn [app socketDataAll].
  destruct (socketData JSON_parse accepted remoteAddress uuid now w c e) as [w1 c1].
  apply IH.
Qed.

Lemma waiting_for_newline JSON_parse accepted remoteAddress uuid now events :
  forall w c,
  headerParsed c = false ->
  dataListener c = None ->
  Buffer.indexOfNewline (buffer c ++ concat events) = None ->
  socketDataAll JSON_parse accepted remoteAddress uuid now w c events
  = (w, setBuffer (buffer c ++ concat events) c).
Proof.
  induction events as [|data rest IH]; intros w c Hh Hl Hnl.
  - simpl. now rewrite app_nil_r, setBuffer_own.
  - cbn [socketDataAll concat] in *. rewrite app_assoc in Hnl.
    pose proof (indexOfNewline_app_None _ _ Hnl) as Hnow.
    unfold socketData, handleConnection_onData. rewrite Hl.
    cbn [headerParsed setBuffer buffer]. rewrite Hh, Hnow.
    rewrite (IH w (setBuffer (buffer c ++ data) c)); [| exact Hh | exact Hl | exact Hnl].
    cbn [buffer setBuffer headerParsed dataListener written ended].
    now rewrite app_assoc.
Qed.

(** X13.  As long as no newline has arrived on a connection the responder
    only accumulates: every byte received is in its buffer, nothing is
    written to the socket, no task exists, no file is touched and the
    socket is not ended, however the bytes were cut into events. *)
Theorem without_newline_only_buffers
    (JSON_parse : list byte -> option Header) (accepted : bool)
    (remoteAddress uuid : string) (now : Z) (w : World) (events : list (list byte)) :
  Buffer.indexOfNewline (concat events) = None ->
  socketDataAll JSON_parse accepted remoteAddress uuid now w newConn events
  = (w, setBuffer (concat events) newConn).
Proof.
  intros Hnl.
  now apply (waiting_for_newline JSON_parse accepted remoteAddress uuid now events
               w newConn).
Qed.

Lemma without_newline_only_buffers_witness :
  socketDataAll (requestParser twoFiles 5) true "192.168.1.7" "task-1" 0
    (receiverWorld None) newConn [[x7b]; [x7d; x7b]; [x7d]]
  = (receiverWorld None, setBuffer (concat [[x7b]; [x7d; x7b]; [x7d]]) newConn).
Proof.
  apply (without_newline_only_buffers (requestParser twoFiles 5) true "192.168.1.7"
           "task-1" 0 (receiverWorld None) [[x7b]; [x7d; x7b]; [x7d]]).
  reflexivity.
Defined.

Lemma without_newline_prefix JSON_parse w events :
  Buffer.indexOfNewline (concat events) = None ->
  socketDataAll JSON_parse true "192.168.1.7" "task-1" 0 w newConn events
  = (w, setBuffer (concat events) newConn).
Proof.
  intros Hnl.
  now apply (waiting_for_newline JSON_parse true "192.168.1.7" "task-1" 0 events
               w newConn).
Qed.

Lemma handleConnection_buffered JSON_parse accepted remoteAddress uuid now w b data :
  handleConnection_onData JSON_parse accepted remoteAddress uuid now w
    (setBuffer b newConn) data
  = handleConnection_onData JSON_parse accepted remoteAddress uuid now w newConn
      (b ++ data).
Proof. reflexivity. Qed.

(** X14.  The header line may arrive in any number of pieces: if the
    events, none of them empty, add up to one header line followed by the
    newline, and the line parses as a transfer request, the connection ends
    up exactly where a single event with the whole line would have put
    it. *)
Theorem header_reassembled_across_events
    (JSON_parse : list byte -> option Header) (line : list byte)
    (fs : list FileInfo) (total : Z) (w : World) (events : list (list byte)) :
  Forall (fun data => data <> []) events ->
  concat events = line ++ [x0a] ->
  Buffer.indexOfNewline line = None ->
  JSON_parse line = Some (mkHeader "transfer_request" fs total) ->
  socketDataAll JSON_parse true "192.168.1.7" "task-1" 0 w newConn events
  = acceptedRequest w fs total.
Proof.
  intros Hne Hcat Hline Hparse.
  destruct events as [|e0 rest0] using rev_ind.
  - destruct line; discriminate Hcat.
  - clear IHrest0. rename rest0 into init, e0 into final.
    apply Forall_app in Hne as [_ Hfinal].
    inversion Hfinal as [|? ? Hfne _]; subst.
    rewrite concat_app in Hcat. cbn [concat] in Hcat. rewrite app_nil_r in Hcat.
    destruct final as [|b0 final0] using rev_ind; [contradiction|]. clear IHfinal0.
    rewrite app_assoc in Hcat. apply app_inj_tail in Hcat as [Hprefix ->].
    assert (Buffer.indexOfNewline (concat init) = None) as Hinit.
    { apply (indexOfNewline_app_None _ final0). now rewrite Hprefix. }
    rewrite socketDataAll_app.
    rewrite (without_newline_prefix JSON_parse w init Hinit).
    cbn [fst snd socketDataAll]. unfold socketData. cbn [dataListener setBuffer newConn].
    rewrite handleConnection_buffered, app_assoc, Hprefix.
    rewrite (TransferProps.header_line_reaches_acceptedRequest JSON_parse line fs total w
               Hline Hparse).
    now destruct (acceptedRequest w fs total).
Qed.

Lemma header_reassembled_across_events_witness :
  socketDataAll (requestParser twoFiles 5) true "192.168.1.7" "task-1" 0
    (receiverWorld None) newConn [[x7b]; [x7d; x0a]]
  = acceptedRequest (receiverWorld None) twoFiles 5.
Proof.
  apply (header_reassembled_across_events (requestParser twoFiles 5) [x7b; x7d]
           twoFiles 5 (receiverWorld None) [[x7b]; [x7d; x0a]]).
  - repeat constructor; discriminate.
  - reflexivity.
  - reflexivity.
  - reflexivity.
Defined.

(** X15.  A request with an empty manifest is accepted and completed in
    the same step: the response is written, the task is reported completed
    with [transferredSize] set to the total the request declared, the
    socket is ended and no file is touched. *)
Theorem empty_manifest_completes_at_once
    (JSON_parse : list byte -> option Header) (line : list byte) (total : Z)
    (w : World) :
  Buffer.indexOfNewline line = None ->
  JSON_parse line = Some (mkHeader "transfer_request" [] total) ->
  let r := handleConnection_onData JSON_parse true "192.168.1.7" "task-1" 0 w newConn
             (line ++ [x0a]) in
  currentTask (fst r)
    = Some (mkTask "task-1" "unknown" "192.168.1.7" [] total total completed receive 0)
  /\ written (snd r) = [WResponse true "接受传输"]
  /\ ended (snd r) = true
  /\ dataListener (snd r) = None
  /\ disk (fst r) = disk w.
Proof.
  intros Hline Hparse r. unfold r.
  rewrite (TransferProps.header_line_reaches_acceptedRequest JSON_parse line [] total w
             Hline Hparse).
  unfold acceptedRequest, receiveNextFile. simpl.
  destruct (onRequestCallback w); simpl; destruct (onCompleteCallback w); simpl;
    repeat split.
Qed.

Lemma empty_manifest_completes_at_once_witness :
  let r := handleConnection_onData (requestParser [] 4096) true "192.168.1.7" "task-1" 0
             (receiverWorld None) newConn ([x7b; x7d] ++ [x0a]) in
  currentTask (fst r)
    = Some (mkTask "task-1" "unknown" "192.168.1.7" [] 4096 4096 completed receive 0)
  /\ written (snd r) = [WResponse true "接受传输"]
  /\ ended (snd r) = true
  /\ dataListener (snd r) = None
  /\ disk (fst r) = disk (receiverWorld None).
Proof.
  apply (empty_manifest_completes_at_once (requestParser [] 4096) [x7b; x7d] 4096
           (receiverWorld None)).
  - reflexivity.
  - reflexivity.
Defined.

(** *** The data phase of the responder *)

Lemma slice_payload chunk :
  Buffer.slice 4 (4 + Buffer.lengthZ chunk)
    (Buffer.writeUInt32BE (Buffer.lengthZ chunk) ++ chunk) = chunk.
Proof.
  unfold Buffer.slice. rewrite lengthZ_app.
  change (Buffer.lengthZ (Buffer.writeUInt32BE (Buffer.lengthZ chunk))) with 4.
  replace (Z.to_nat (Z.min (4 + Buffer.lengthZ chunk) (4 + Buffer.lengthZ chunk) - 4))
    with (length chunk) by (unfold Buffer.lengthZ; lia).
  change (Z.to_nat 4) with 4%nat. unfold Buffer.writeUInt32BE. cbn [app drop].
  apply firstn_all.
Qed.

(** X16.  A chunk frame as [readAndSend] writes it, delivered whole as one
    event, is decoded exactly: the listener appends the payload of the
    frame, all of it and nothing else, to the file that is open. *)
Theorem sender_frame_is_appended_intact
    (w : World) (c : Conn) (l : Listener) (chunk : list byte) :
  goodChunk chunk ->
  disk (fst (receiveData_listener w c l
               (Buffer.writeUInt32BE (Buffer.lengthZ chunk) ++ chunk)))
  = Fs.write (disk w) (currentFileHandle l) chunk.
Proof.
  intros [Hlo Hhi].
  set (data := Buffer.writeUInt32BE (Buffer.lengthZ chunk) ++ chunk).
  assert (Buffer.lengthZ data = 4 + Buffer.lengthZ chunk) as Hlen.
  { unfold data. now rewrite lengthZ_app. }
  assert (Buffer.readUInt32BE data = Buffer.lengthZ chunk) as Hread.
  { unfold data. apply readUInt32BE_writeUInt32BE. unfold CHUNK_SIZE in Hhi. lia. }
  destruct (TransferProps.chunk_goes_to_the_open_handle w c l data) as [Hdisk _].
  - lia.
  - replace (Buffer.lengthZ data =? 4) with false; [reflexivity|].
    symmetry. apply Z.eqb_neq. lia.
  - rewrite Hdisk, Hread. unfold data. now rewrite slice_payload.
Qed.

Lemma sender_frame_is_appended_intact_witness :
  disk (fst (receiveData_listener
               (fst (acceptedRequest (receiverWorld None) twoFiles 5))
               (snd (acceptedRequest (receiverWorld None) twoFiles 5))
               (mkListener twoFiles 0 "/home/u/Downloads/LanDrop/a.bin" 0)
               (Buffer.writeUInt32BE (Buffer.lengthZ (list_byte_of_string "aa"))
                  ++ list_byte_of_string "aa")))
  = Fs.write (disk (fst (acceptedRequest (receiverWorld None) twoFiles 5)))
      "/home/u/Downloads/LanDrop/a.bin" (list_byte_of_string "aa").
Proof.
  apply (sender_frame_is_appended_intact
           (fst (acceptedRequest (receiverWorld None) twoFiles 5))
           (snd (acceptedRequest (receiverWorld None) twoFiles 5))
           (mkListener twoFiles 0 "/home/u/Downloads/LanDrop/a.bin" 0)
           (list_byte_of_string "aa")).
  unfold goodChunk, CHUNK_SIZE. vm_compute. split; discriminate.
Defined.

Lemma deaf_connection_timed JSON_parse accepted remoteAddress uuid now events :
  forall w c,
  headerParsed c = true ->
  dataListener c = None ->
  socketDataTimedAll JSON_parse accepted remoteAddress uuid now w c events
  = (w, setBuffer (buffer c ++ concat (map snd events)) c).
Proof.
  induction events as [|[heard data] rest IH]; intros w c Hh Hl.
  - simpl. now rewrite app_nil_r, setBuffer_own.
  - cbn [socketDataTimedAll map concat snd].
    assert (socketDataTimed JSON_parse accepted remoteAddress uuid now w c heard data
            = (w, setBuffer (buffer c ++ data) c)) as ->.
    { unfold socketDataTimed, socketData, handleConnection_onData. rewrite Hl.
      cbn [headerParsed setBuffer]. rewrite Hh. now destruct heard. }
    rewrite (IH w (setBuffer (buffer c ++ data) c)); [| exact Hh | exact Hl].
    cbn [buffer setBuffer headerParsed dataListener written ended].
    now rewrite app_assoc.
Qed.

Lemma waiting_listener JSON_parse accepted remoteAddress uuid now l events :
  forall w c,
  headerParsed c = true ->
  dataListener c = Some l ->
  forallb unheardOrShort events = true ->
  socketDataTimedAll JSON_parse accepted remoteAddress uuid now w c events
  = (w, setBuffer (buffer c ++ concat (map snd events)) c).
Proof.
  induction events as [|[heard data] rest IH]; intros w c Hh Hl Hall.
  - simpl. now rewrite app_nil_r, setBuffer_own.
  - cbn [forallb] in Hall. apply andb_prop in Hall as [He Hrest].
    cbn [socketDataTimedAll map concat snd].
    assert (socketDataTimed JSON_parse accepted remoteAddress uuid now w c heard data
            = (w, setBuffer (buffer c ++ data) c)) as ->.
    { unfold socketDataTimed, socketData, handleConnection_onData. rewrite Hl.
      cbn [headerParsed setBuffer]. rewrite Hh.
      destruct heard; [|reflexivity].
      unfold unheardOrShort in He. cbn [fst snd negb orb] in He.
      unfold receiveData_listener. rewrite He.
      replace (Buffer.lengthZ data =? 4) with false
        by (symmetry; apply Z.eqb_neq; apply Z.ltb_lt in He; lia).
      cbn [andb]. destruct c; simpl in *. now subst. }
    rewrite (IH w (setBuffer (buffer c ++ data) c)); [| exact Hh | exact Hl | exact Hrest].
    cbn [buffer setBuffer headerParsed dataListener written ended].
    now rewrite app_assoc.
Qed.

Lemma socketDataTimedAll_app JSON_parse accepted remoteAddress uuid now events1 events2 :
  forall w c,
  socketDataTimedAll JSON_parse accepted remoteAddress uuid now w c (events1 ++ events2)
  = socketDataTimedAll JSON_parse accepted remoteAddress uuid now
      (fst (socketDataTimedAll JSON_parse accepted remoteAddress uuid now w c events1))
      (snd (socketDataTimedAll JSON_parse accepted remoteAddress uuid now w c events1))
      events2.
Proof.
  induction events1 as [|[heard data] rest IH]; intros w c; [reflexivity|].
  cbn [app socketDataTimedAll].
  destruct (socketDataTimed JSON_parse accepted remoteAddress uuid now w c heard data)
    as [w1 c1].
  apply IH.
Qed.

(** X17.  In an environment without a global [totalWrittenBytes] (the name
    is not declared where it is used), the first chunk event that finds
    the one-shot listener registered is the only event of the connection
    that is written.  Events emitted before the listener is registered
    (while the file is still being opened) and events shorter than a frame
    header are only added to the buffer of [handleConnection]; the payload
    of that first heard chunk is written, the socket is ended, no listener
    is left, and every later event, heard or not, leaves the disk, the
    task and the notifications as they are. *)
Theorem only_the_first_chunk_is_written
    (JSON_parse : list byte -> option Header) (accepted : bool)
    (remoteAddress uuid : string) (now : Z) (w : World) (c : Conn) (l : Listener)
    (before : list (bool * list byte)) (data : list byte)
    (later : list (bool * list byte)) :
  totalWrittenBytes w = None ->
  headerParsed c = true ->
  dataListener c = Some l ->
  forallb unheardOrShort before = true ->
  Buffer.lengthZ data >= 4 ->
  (Buffer.lengthZ data =? 4) && (Buffer.readUInt32BE data =? 0) = false ->
  let r := socketDataTimedAll JSON_parse accepted remoteAddress uuid now w c
             (before ++ (true, data) :: later) in
  fst r = setDisk (Fs.write (disk w) (currentFileHandle l)
                     (Buffer.slice 4 (4 + Buffer.readUInt32BE data) data)) w
  /\ ended (snd r) = true
  /\ dataListener (snd r) = None
  /\ buffer (snd r) = buffer c ++ concat (map snd before) ++ data ++ concat (map snd later).
Proof.
  intros Hg Hh Hl Hbefore Hlen Hmark r. unfold r.
  rewrite socketDataTimedAll_app.
  rewrite (waiting_listener JSON_parse accepted remoteAddress uuid now l before w c
             Hh Hl Hbefore).
  cbn [fst snd socketDataTimedAll].
  unfold socketDataTimed, socketData, handleConnection_onData.
  cbn [dataListener headerParsed setBuffer buffer]. rewrite Hl, Hh.
  unfold receiveData_listener. rewrite Hmark.
  replace (Buffer.lengthZ data <? 4) with false by (symmetry; apply Z.ltb_ge; lia).
  cbn [totalWrittenBytes setDisk]. rewrite Hg.
  rewrite deaf_connection_timed; [| exact Hh | reflexivity].
  cbn [fst snd ended dataListener buffer setBuffer socketEnd setListener].
  repeat split. now rewrite <- !app_assoc.
Qed.

Lemma only_the_first_chunk_is_written_witness :
  let w := fst (acceptedRequest (receiverWorld None) twoFiles 5) in
  let c := snd (acceptedRequest (receiverWorld None) twoFiles 5) in
  let r := socketDataTimedAll (requestParser twoFiles 5) true "192.168.1.7" "task-1" 0 w c
             ([(false, chunk "aa"); (true, [x00; x00])]
              ++ (true, chunk "bbb") :: [(true, endMarker)]) in
  fst r = setDisk (Fs.write (disk w) "/home/u/Downloads/LanDrop/a.bin"
                     (Buffer.slice 4 (4 + Buffer.readUInt32BE (chunk "bbb")) (chunk "bbb"))) w
  /\ ended (snd r) = true
  /\ dataListener (snd r) = None
  /\ buffer (snd r)
     = buffer c ++ concat (map snd [(false, chunk "aa"); (true, [x00; x00])])
       ++ chunk "bbb" ++ concat (map snd [(true, endMarker)]).
Proof.
  apply (only_the_first_chunk_is_written (requestParser twoFiles 5) true "192.168.1.7"
           "task-1" 0
           (fst (acceptedRequest (receiverWorld None) twoFiles 5))
           (snd (acceptedRequest (receiverWorld None) twoFiles 5))
           (mkListener twoFiles 0 "/home/u/Downloads/LanDrop/a.bin" 0)
           [(false, chunk "aa"); (true, [x00; x00])]
           (chunk "bbb") [(true, endMarker)]).
  - reflexivity.
  - reflexivity.
  - vm_compute. reflexivity.
  - vm_compute. reflexivity.
  - vm_compute. discriminate.
  - vm_compute. reflexivity.
Defined.

(** The chunk that arrives while the first file is still being opened is
    lost to the file: only the chunk that follows is written. *)
Example early_chunk_is_not_written :
  let r := socketDataTimedAll (requestParser twoFiles 5) true "192.168.1.7" "task-1" 0
             (fst (acceptedRequest (receiverWorld None) twoFiles 5))
             (snd (acceptedRequest (receiverWorld None) twoFiles 5))
             [(false, chunk "aa"); (true, chunk "bbb")] in
  Fs.lookup (disk (fst r)) "/home/u/Downloads/LanDrop/a.bin"
  = Some (Fs.File (list_byte_of_string "bbb")).
Proof. vm_compute. reflexivity. Qed.

(** Timing does not rescue either stream.  Whichever events of the
    two-file stream find the listener registered, the second file does not
    receive its bytes; whichever events of the stream cut inside a frame
    do, the file does not receive the two bytes sent. *)
Lemma second_file_is_short_under_any_timing
    (JSON_parse : list byte -> option Header) (accepted : bool) (g : option Z)
    (h1 h2 h3 : bool) :
  disk (fst (dataPhaseTimed JSON_parse accepted (receiverWorld g) twoFiles 5
               [(h1, chunk "aa"); (h2, chunk "bbb"); (h3, endMarker)]))
    !! "/home/u/Downloads/LanDrop/b.bin" <> fileOf "bbb".
Proof.
  destruct g as [total|], h1, h2, h3; vm_compute; discriminate.
Qed.

Lemma shifted_stream_is_short_under_any_timing
    (JSON_parse : list byte -> option Header) (accepted : bool) (g : option Z)
    (h1 h2 : bool) :
  disk (fst (dataPhaseTimed JSON_parse accepted (receiverWorld g) [entry "a.bin" 2] 2
               [(h1, take 5 (chunk "ab")); (h2, drop 5 (chunk "ab") ++ endMarker)]))
    !! "/home/u/Downloads/LanDrop/a.bin" <> fileOf "ab".
Proof.
  destruct g as [total|], h1, h2; vm_compute; discriminate.
Qed.

Lemma all_heard_is_socketDataAll JSON_parse accepted remoteAddress uuid now events :
  forall w c,
  socketDataTimedAll JSON_parse accepted remoteAddress uuid now w c
    (map (pair true) events)
  = socketDataAll JSON_parse accepted remoteAddress uuid now w c events.
Proof.
  induction events as [|data rest IH]; intros w c; [reflexivity|].
  cbn [map socketDataTimedAll socketDataAll socketDataTimed].
  destruct (socketData JSON_parse accepted remoteAddress uuid now w c data) as [w1 c1].
  apply IH.
Qed.

(** *** Settlement *)

Lemma readAndSend_promise fuel : forall content b w s,
  promise (snd (readAndSend fuel content b w s)) = promise s.
Proof.
  induction fuel as [|fuel IH]; intros content b w s; [reflexivity|].
  cbn [readAndSend]. destruct (_ =? 0); [reflexivity|]. now rewrite IH.
Qed.

Lemma sendNextFile_promise fs : forall w s,
  promise (snd (sendNextFile w s fs)) = promise s.
Proof.
  induction fs as [|file rest IH]; intros w s; cbn [sendNextFile]; [reflexivity|].
  destruct (Fs.lookup (disk w) (path file)) as [[content|]|]; try reflexivity.
  pose proof (readAndSend_promise (S (length content)) content 0 w s) as H1.
  destruct (readAndSend (S (length content)) content 0 w s) as [w1 s1].
  simpl in H1. now rewrite IH.
Qed.

Lemma sender_on_rejected w s e message :
  promise s = Rejected message -> promise (snd (sender_on w s e)) = Rejected message.
Proof.
  intros Hp. destruct e as [|[response|]|error|]; simpl; try exact Hp.
  - destruct (String.eqb (r_type response) "transfer_response"); [|exact Hp].
    destruct (r_accepted response).
    + now rewrite sendNextFile_promise.
    + simpl. now rewrite Hp.
  - now rewrite Hp.
  - destruct (isCompleted w); destruct (closeListener s); simpl; now rewrite ?Hp.
Qed.

(** X22.  The first rejection is the one the caller sees: once the promise
    of [sendFiles] is rejected, no later reply, error or close changes its
    message or resolves it. *)
Theorem first_rejection_is_final
    (w : World) (s : Sender) (events : list SocketEvent) (message : string) :
  promise s = Rejected message ->
  promise (snd (sender_run w s events)) = Rejected message.
Proof.
  revert w s. induction events as [|e rest IH]; intros w s Hp; [exact Hp|].
  cbn [sender_run]. pose proof (sender_on_rejected w s e message Hp) as H1.
  destruct (sender_on w s e) as [w1 s1]. now apply IH.
Qed.

Lemma first_rejection_is_final_witness :
  promise
    (snd (sender_run
            (fst (session senderWorld peer twoFiles "task-1" 0 [Connect; reply false "busy"]))
            (snd (session senderWorld peer twoFiles "task-1" 0 [Connect; reply false "busy"]))
            [Error "ECONNRESET"; reply true "ok"; Close; Close]))
  = Rejected "busy".
Proof.
  apply (first_rejection_is_final
           (fst (session senderWorld peer twoFiles "task-1" 0 [Connect; reply false "busy"]))
           (snd (session senderWorld peer twoFiles "task-1" 0 [Connect; reply false "busy"]))
           [Error "ECONNRESET"; reply true "ok"; Close; Close] "busy").
  reflexivity.
Defined.

End TransferMore.

(** ** The IPC handlers *)

Module IpcMore.

Import Transfer TransferScenario TransferMoreScenario Ipc.
Local Open Scope Z_scope.

Lemma fileBytes_app a b : fileBytes (a ++ b) = fileBytes a + fileBytes b.
Proof.
  unfold fileBytes. rewrite filter_app, map_app.
  induction (map size (filter (fun f => isDirectory f = false) a)) as [|x l IH];
    simpl; lia.
Qed.

Lemma directoryBytes_app a b :
  directoryBytes (a ++ b) = directoryBytes a + directoryBytes b.
Proof.
  unfold directoryBytes. rewrite filter_app, map_app.
  induction (map size (filter (fun f => isDirectory f = true) a)) as [|x l IH];
    simpl; lia.
Qed.

Lemma scanEntry_bytes basePath : forall e dirPath,
  fileBytes (scanEntry basePath dirPath e) = treeBytes e
  /\ directoryBytes (scanEntry basePath dirPath e) = 0.
Proof.
  fix IH 1. intros [n bytes|n children] dirPath.
  - split; [unfold fileBytes; simpl; lia | reflexivity].
  - cbn [scanEntry treeBytes].
    set (fullPath := Path.join dirPath n).
    set (inner := (fix scanAll (l : list Entry) : list FileInfo :=
                     match l with
                     | [] => []
                     | c :: rest => scanEntry basePath fullPath c ++ scanAll rest
                     end) children).
    set (total := (fix total (l : list Entry) : Z :=
                     match l with
                     | [] => 0
                     | c :: rest => treeBytes c + total rest
                     end) children).
    assert (fileBytes inner = total /\ directoryBytes inner = 0) as [Hf Hd].
    { unfold inner, total. clear inner total.
      induction children as [|c rest IHrest]; [split; reflexivity|].
      destruct (IH c fullPath) as [Hc1 Hc2]. destruct IHrest as [Hr1 Hr2].
      rewrite fileBytes_app, directoryBytes_app. split; lia. }
    split.
    + change (fileBytes (mkFileInfo n 0 true fullPath
                           (Some (relative basePath fullPath)) :: inner))
        with (fileBytes inner). exact Hf.
    + change (directoryBytes (mkFileInfo n 0 true fullPath
                                (Some (relative basePath fullPath)) :: inner))
        with (0 + directoryBytes inner). lia.
Qed.

Lemma scanDir_bytes basePath dirPath entries :
  fileBytes (scanDir dirPath basePath entries) = folderBytes entries
  /\ directoryBytes (scanDir dirPath basePath entries) = 0.
Proof.
  induction entries as [|e rest [IH1 IH2]]; [split; reflexivity|].
  cbn [scanDir folderBytes]. rewrite fileBytes_app, directoryBytes_app.
  destruct (scanEntry_bytes basePath e dirPath) as [H1 H2]. split; lia.
Qed.

(** X18.  For a folder picked through the folder dialog, every directory
    entry of the scanned list has size 0, so the total announced when the
    list is sent is exactly the number of bytes of the files in the folder,
    at any depth. *)
Theorem folder_total_is_its_file_bytes
    (w : World) (device : Discovery.Device) (folderPath : string)
    (more : list string) (content : list Entry) (uuid : string) (now : Z) :
  exists fs,
    openFolder false (folderPath :: more) content = Some fs
    /\ directoryBytes fs = 0
    /\ requestTotals (socketWrites (snd (session w device fs uuid now [Connect])))
       = [folderBytes content].
Proof.
  exists (scanDir folderPath folderPath content). split; [reflexivity|].
  destruct (scanDir_bytes folderPath folderPath content) as [Hf Hd].
  split; [exact Hd|]. unfold session. simpl.
  rewrite TransferProps.sumSizes_split, Hf, Hd. f_equal. lia.
Qed.



(** *** Relative paths of a scanned folder *)

Lemma join_components dir n :
  Path.isAbsolute dir = true -> kept n ->
  Path.isAbsolute (Path.join dir n) = true
  /\ components (Path.join dir n) = components dir ++ [n].
Proof.
  intros Habs [Hskip [Hdd Hns]]. unfold Path.join.
  rewrite (PathFacts.absolute_nonempty dir Habs).
  assert (String.eqb n "" = false) as Hn.
  { unfold Path.isSkipped in Hskip. now apply orb_false_elim in Hskip as [H _]. }
  rewrite Hn.
  assert (Path.isAbsolute (dir ++ "/" ++ n)%string = true) as Habs'.
  { destruct dir; [discriminate | exact Habs]. }
  destruct (PathFacts.normalize_absolute _ Habs') as [H1 H2].
  split; [exact H1|]. rewrite H2.
  rewrite (PathFacts.components_absolute _ Habs'), (PathFacts.components_absolute _ Habs).
  change (dir ++ "/" ++ n)%string with (dir ++ String "/" n)%string.
  rewrite PathFacts.split_app_slash, PathFacts.normalizeSegments_app.
  rewrite (PathFacts.split_single n Hns).
  rewrite PathFacts.normalizeSegments_kept by (constructor; [now repeat split | constructor]).
  now rewrite rev_involutive.
Qed.

Lemma stripCommon_prefix l s : stripCommon l (l ++ s) = ([], s).
Proof.
  induction l as [|x l IH]; simpl; [now destruct s|].
  now rewrite String.eqb_refl.
Qed.

Lemma relative_below from to suffix :
  components to = components from ++ suffix ->
  relative from to = Path.concatSegments suffix.
Proof.
  intros H. unfold relative.
  change (Path.normalizeSegments (negb (Path.isAbsolute from)) [] (Path.split from))
    with (components from).
  change (Path.normalizeSegments (negb (Path.isAbsolute to)) [] (Path.split to))
    with (components to).
  now rewrite H, stripCommon_prefix.
Qed.

Lemma scanEntry_paths basePath : forall e dirPath above,
  wellNamed e ->
  Path.isAbsolute dirPath = true ->
  components dirPath = components basePath ++ above ->
  map relativePath (scanEntry basePath dirPath e)
  = map (fun segs => Some (Path.concatSegments segs)) (namePaths above e).
Proof.
  fix IH 1. intros [n bytes|n children] dirPath above Hwell Habs Hcomp.
  - destruct (join_components dirPath n Habs Hwell) as [_ Hc].
    cbn [scanEntry namePaths map relativePath]. do 2 f_equal.
    apply relative_below. now rewrite Hc, Hcomp, <- app_assoc.
  - destruct Hwell as [Hn Hchildren].
    destruct (join_components dirPath n Habs Hn) as [Habs' Hc].
    cbn [scanEntry namePaths]. set (fullPath := Path.join dirPath n) in *.
    assert (components fullPath = components basePath ++ (above ++ [n])) as Hfull
      by now rewrite Hc, Hcomp, <- app_assoc.
    cbn [map relativePath]. f_equal.
    + f_equal. now apply relative_below.
    + induction children as [|c rest IHrest]; [reflexivity|].
      destruct Hchildren as [Hc0 Hrest].
      rewrite !map_app, (IH c fullPath (above ++ [n]) Hc0 Habs' Hfull).
      f_equal. now apply IHrest.
Qed.

(** X20.  For a folder picked by absolute path whose entries have ordinary
    names, the [relativePath] of every scanned entry is the chain of names
    from the picked folder down to the entry, joined with separators, and
    the entries come in depth-first order with each directory before its
    content. *)
Theorem scanned_relative_paths_follow_the_tree
    (folderPath : string) (content : list Entry) :
  Path.isAbsolute folderPath = true ->
  allWellNamed content ->
  map relativePath (scanDir folderPath folderPath content)
  = map (fun segs => Some (Path.concatSegments segs)) (folderPaths [] content).
Proof.
  intros Habs Hwell.
  induction content as [|e rest IH]; [reflexivity|].
  destruct Hwell as [He Hrest]. cbn [scanDir folderPaths]. rewrite !map_app.
  rewrite (scanEntry_paths folderPath e folderPath [] He Habs)
    by now rewrite app_nil_r.
  f_equal. now apply IH.
Qed.

Lemma scanned_relative_paths_follow_the_tree_witness :
  map relativePath (scanDir "/home/u/trip" "/home/u/trip" holiday)
  = map (fun segs => Some (Path.concatSegments segs)) (folderPaths [] holiday).
Proof.
  apply (scanned_relative_paths_follow_the_tree "/home/u/trip" holiday).
  - reflexivity.
  - vm_compute. tauto.
Defined.

End IpcMore.
